(** * Customer manager: a shallow embedding of [customer_manager.py]

    The script keeps a list of customer records in a JSON file and offers
    four commands (list, add, edit, delete).  This development embeds its
    functions as Rocq functions and proves the properties its
    specification states about them.

    - Python values are the inductive type [value]; a [dict] is an
      association list in insertion order.  JSON numbers with a fraction
      or an exponent (Python floats) are not part of the model.
    - A Python [str] is a [string]; every [ascii] stands for one
      character, so [String.length] is [len].
    - A Python exception is the [Raise] branch of [result].
    - A command is a function on [world]: the files (their text, as text
      mode reads and writes it) and the lines printed so far.
    - The json module is the standard library's: the commands are defined
      over any behaviour of [json.dump] and [json.load] ([JsonModule]);
      [JsonLib] is the module within the interpreter's limits, where
      [json.dump] returns and [json.load] raises JSONDecodeError only. *)

From Stdlib Require Import ZArith String Ascii List Lia.
From Stdlib Require Import Decimal DecimalString DecimalFacts DecimalPos DecimalZ.
From stdpp Require Import gmap strings list.

Set Warnings "-register-all".

Local Open Scope Z_scope.
Local Open Scope string_scope.
Local Open Scope list_scope.

(** ** Python values *)

Inductive value : Type :=
| VNone
| VBool (b : bool)
| VInt (z : Z)
| VStr (s : string)
| VList (items : list value)
| VDict (d : list (string * value)).

(** A dict with string keys, in insertion order. *)
Abbreviation dict := (list (string * value)).

Inductive exn : Type :=
| TypeError
| AttributeError
| FileNotFoundError
| JSONDecodeError
| RecursionError
| ValueError
| UnicodeDecodeError
| SystemExit (code : Z).

Inductive result (A : Type) : Type :=
| Ok (a : A)
| Raise (e : exn).
Arguments Ok {A} a.
Arguments Raise {A} e.

Definition rbind {A B} (r : result A) (k : A -> result B) : result B :=
  match r with
  | Ok a => k a
  | Raise e => Raise e
  end.

Notation "x <- r ;; k" := (rbind r (fun x => k))
  (at level 100, r at next level, right associativity).

(** ** Characters that cannot be written inside a string literal *)

Definition newline : string := String (ascii_of_nat 10) EmptyString.
Definition dquote_char : ascii := ascii_of_nat 34.
Definition dquote : string := String dquote_char EmptyString.

(** ** dict operations *)

(** [d.get(key)]: the value bound to [key], if any. *)
Fixpoint dict_get (key : string) (d : dict) : option value :=
  match d with
  | [] => None
  | (k, v) :: rest => if String.eqb k key then Some v else dict_get key rest
  end.

(** [d[key] = v]: overwrites the binding in place, or appends a new one. *)
Fixpoint dict_set (key : string) (v : value) (d : dict) : dict :=
  match d with
  | [] => [(key, v)]
  | (k, w) :: rest =>
      if String.eqb k key then (k, v) :: rest else (k, w) :: dict_set key v rest
  end.

(** [c.get(key, default)]; only a dict has the method [get]. *)
Definition py_get (c : value) (key : string) (default : value) : result value :=
  match c with
  | VDict d => Ok (match dict_get key d with Some v => v | None => default end)
  | _ => Raise AttributeError
  end.

Arguments py_get : simpl never.

(** ** Numbers: [bool] is a subclass of [int] *)

Definition as_int (v : value) : option Z :=
  match v with
  | VInt z => Some z
  | VBool b => Some (Z.b2z b)
  | _ => None
  end.

(** [str(n)] for an int. *)
Definition str_of_int (z : Z) : string := NilZero.string_of_int (Z.to_int z).

(** ** [==] on values *)

Fixpoint py_eq (a b : value) {struct a} : bool :=
  match a, b with
  | VNone, VNone => true
  | VStr s, VStr t => String.eqb s t
  | VList l, VList m =>
      (fix all2 (l : list value) (m : list value) : bool :=
         match l, m with
         | [], [] => true
         | x :: l', y :: m' => py_eq x y && all2 l' m'
         | _, _ => false
         end) l m
  | VDict d, VDict e =>
      Nat.eqb (length d) (length e) &&
      (fix sub (d : list (string * value)) : bool :=
         match d with
         | [] => true
         | (k, v) :: d' =>
             match dict_get k e with
             | Some w => py_eq v w && sub d'
             | None => false
             end
         end) d
  | _, _ =>
      match as_int a, as_int b with
      | Some x, Some y => Z.eqb x y
      | _, _ => false
      end
  end.

(** [a > b]: numbers with numbers, strings with strings (by code point),
    lists with lists (at the first differing item, else by length);
    anything else raises TypeError. *)
Fixpoint py_gt (a b : value) {struct a} : result bool :=
  match a, b with
  | VStr s, VStr t =>
      Ok (match String.compare s t with Gt => true | _ => false end)
  | VList l, VList m =>
      (fix lex (l : list value) (m : list value) : result bool :=
         match l, m with
         | x :: l', y :: m' => if py_eq x y then lex l' m' else py_gt x y
         | _ :: _, [] => Ok true
         | [], _ => Ok false
         end) l m
  | _, _ =>
      match as_int a, as_int b with
      | Some x, Some y => Ok (Z.gtb x y)
      | _, _ => Raise TypeError
      end
  end.

(** [a + b]. *)
Definition py_add (a b : value) : result value :=
  match a, b with
  | VStr s, VStr t => Ok (VStr (s +:+ t))
  | VList l, VList m => Ok (VList (l ++ m))
  | _, _ =>
      match as_int a, as_int b with
      | Some x, Some y => Ok (VInt (x + y))
      | _, _ => Raise TypeError
      end
  end.

(** ** [str] and [repr] *)

Definition hex_digit (n : nat) : ascii :=
  nth n (list_ascii_of_string "0123456789abcdef") "0"%char.

Definition hex2 (c : ascii) : string :=
  let n := nat_of_ascii c in
  String (hex_digit (n / 16)) (String (hex_digit (n mod 16)) EmptyString).

(** [str.isprintable] on the characters below 256. *)
Definition printable (c : ascii) : bool :=
  let n := nat_of_ascii c in
  Nat.leb 32 n && Nat.ltb n 127 || Nat.leb 161 n && negb (Nat.eqb n 173).

Fixpoint contains_char (c : ascii) (s : string) : bool :=
  match s with
  | EmptyString => false
  | String x rest => Ascii.eqb x c || contains_char c rest
  end.

Definition repr_char (quote c : ascii) : string :=
  if Ascii.eqb c quote || Ascii.eqb c "\"%char then String "\"%char (String c EmptyString)
  else if Ascii.eqb c (ascii_of_nat 9) then "\t"
  else if Ascii.eqb c (ascii_of_nat 10) then "\n"
  else if Ascii.eqb c (ascii_of_nat 13) then "\r"
  else if printable c then String c EmptyString
  else "\x" +:+ hex2 c.

(** [repr(s)] for a str: single quotes unless the text has a single quote
    and no double quote. *)
Definition repr_str (s : string) : string :=
  let quote :=
    if contains_char "'"%char s && negb (contains_char dquote_char s)
    then dquote_char else "'"%char in
  String quote
    (String.concat EmptyString (map (repr_char quote) (list_ascii_of_string s))
     +:+ String quote EmptyString).

Fixpoint py_repr (v : value) : string :=
  match v with
  | VNone => "None"
  | VBool true => "True"
  | VBool false => "False"
  | VInt z => str_of_int z
  | VStr s => repr_str s
  | VList l => "[" +:+ String.concat ", " (map py_repr l) +:+ "]"
  | VDict d =>
      "{" +:+ String.concat ", "
                (map (fun kv : string * value =>
                        repr_str (fst kv) +:+ ": " +:+ py_repr (snd kv)) d) +:+ "}"
  end.

(** [str(v)]: a str is itself, anything else is its [repr]. *)
Definition py_str (v : value) : string :=
  match v with
  | VStr s => s
  | _ => py_repr v
  end.

(** ** The world a command runs in *)

(** The files, by path, with their text; and the texts printed so far, one
    for each call of [print]. *)
Record world : Type := World {
  files : gmap string string;
  stdout : list string
}.

(** A command changes the world and returns or raises; what it wrote and
    printed before raising stays. *)
Definition cmd (A : Type) : Type := world -> world * result A.

Definition ret {A} (a : A) : cmd A := fun w => (w, Ok a).

Definition bind {A B} (c : cmd A) (k : A -> cmd B) : cmd B :=
  fun w =>
    match c w with
    | (w', Ok a) => k a w'
    | (w', Raise e) => (w', Raise e)
    end.

Definition lift {A} (r : result A) : cmd A := fun w => (w, r).

Notation "x <-- c ;; k" := (bind c (fun x => k))
  (at level 100, c at next level, right associativity).
Notation "c ;;; k" := (bind c (fun _ => k))
  (at level 100, right associativity).

(** [try: body except E: handler], [handles] telling the exceptions of
    class [E]. *)
Definition try_except {A} (body : cmd A) (handles : exn -> bool)
    (handler : cmd A) : cmd A :=
  fun w =>
    match body w with
    | (w', Raise e) => if handles e then handler w' else (w', Raise e)
    | done => done
    end.

Definition print (line : string) : cmd unit :=
  fun w => (World (files w) (stdout w ++ [line]), Ok tt).

Definition sys_exit {A} (code : Z) : cmd A := lift (Raise (SystemExit code)).

Definition os_path_exists (path : string) : cmd bool :=
  fun w => (w, Ok (bool_decide (is_Some (files w !! path)))).

(** [open(path, "r").read()] *)
Definition read_text (path : string) : cmd string :=
  fun w =>
    match files w !! path with
    | Some text => (w, Ok text)
    | None => (w, Raise FileNotFoundError)
    end.

(** [open(path, "w").write(text)]: creates the file or replaces its text. *)
Definition write_text (path : string) (text : string) : cmd unit :=
  fun w => (World (<[path := text]> (files w)) (stdout w), Ok tt).

(** The status the process ends with: 0 after a normal return, the code of
    [sys.exit], 1 after any other exception. *)
Definition exit_status {A} (r : result A) : Z :=
  match r with
  | Ok _ => 0
  | Raise (SystemExit code) => code
  | Raise _ => 1
  end.

(** ** The json module

    [json.dump] and [json.load] are the standard library's, not the
    script's: the commands are defined over any behaviour of the two.

    [json_load_reads text] is what [json.load] does with a file that holds
    [text]: it returns the document or raises.  JSONDecodeError is what it
    raises for text that is not JSON; it can raise others, which are no
    JSONDecodeError: RecursionError for text nested deeper than the
    interpreter's recursion limit, ValueError for an integer of more digits
    than the interpreter converts, UnicodeDecodeError for content that is
    not UTF-8.

    [json_dump_writes indent v] is the text [json.dump] writes to the
    file, and the exception that stopped it, if one did: the text is then
    what had been written before. *)
Class JsonModule : Type := {
  json_dump_writes : nat -> value -> string * option exn;
  json_load_reads : string -> result value
}.

Definition DATA_FILE : string := "customers.json".

Definition is_JSONDecodeError (e : exn) : bool :=
  match e with JSONDecodeError => true | _ => false end.

Section Commands.
Context `{JsonModule}.

(** [json.load(f)] *)
Definition json_load (path : string) : cmd value :=
  text <-- read_text path ;;
  lift (json_load_reads text).

(** [json.dump(v, f, indent=n)] on a file opened for writing: the file
    holds what was written, also when [json.dump] raises. *)
Definition json_dump (v : value) (path : string) (indent : nat) : cmd unit :=
  let (text, stopped) := json_dump_writes indent v in
  write_text path text ;;;
  match stopped with
  | Some e => lift (Raise e)
  | None => ret tt
  end.

Definition load_customers (path : string) : cmd (list value) :=
  present <-- os_path_exists path ;;
  if negb present then ret []
  else
    parsed <-- try_except (data <-- json_load path ;; ret (Some data))
                 is_JSONDecodeError (ret None) ;;
    match parsed with
    | None => ret []
    | Some (VList data) => ret data
    | Some _ => ret []
    end.

Definition save_customers (customers : list value) (path : string) : cmd unit :=
  json_dump (VList customers) path 2.

End Commands.

(** ** The json module within the interpreter's limits

    A json module whose [dump] writes the whole text and whose [load]
    raises nothing but JSONDecodeError, as on a store the script itself
    wrote: [json_dumps] is [json.dumps(v, indent=n)], and [json_loads] is
    [None] where [json.loads] raises JSONDecodeError. *)
Class JsonLib : Type := {
  json_dumps : nat -> value -> string;
  json_loads : string -> option value
}.

#[export] Instance json_module_of_lib `{JsonLib} : JsonModule := {|
  json_dump_writes indent v := (json_dumps indent v, None);
  json_load_reads text :=
    match json_loads text with
    | Some data => Ok data
    | None => Raise JSONDecodeError
    end
|}.

Coercion json_module_of_lib : JsonLib >-> JsonModule.

(** ** next_id *)

(** [max] over the ids of [rest], [cur] being the largest so far: an item
    replaces it when [item > cur]. *)
Fixpoint max_id (cur : value) (rest : list value) : result value :=
  match rest with
  | [] => Ok cur
  | c :: rest' =>
      item <- py_get c "id" (VInt 0) ;;
      above <- py_gt item cur ;;
      max_id (if above then item else cur) rest'
  end.

Definition next_id (customers : list value) : result value :=
  match customers with
  | [] => Ok (VInt 1)
  | c :: rest =>
      first <- py_get c "id" (VInt 0) ;;
      largest <- max_id first rest ;;
      py_add largest (VInt 1)
  end.

(** ** render_table *)

Definition headers : list string := ["ID"; "Name"; "Phone"; "Email"; "Notes"].
Definition keys : list string := ["id"; "name"; "phone"; "email"; "notes"].

Fixpoint repeat_char (c : ascii) (n : nat) : string :=
  match n with
  | O => EmptyString
  | S n' => String c (repeat_char c n')
  end.

(** [s.ljust(width)] *)
Definition ljust (s : string) (width : nat) : string :=
  s +:+ repeat_char " "%char (width - String.length s).

Fixpoint mapM {A B} (f : A -> result B) (l : list A) : result (list B) :=
  match l with
  | [] => Ok []
  | x :: rest => y <- f x ;; ys <- mapM f rest ;; Ok (y :: ys)
  end.

(** [[str(row.get(key, "")) for key in keys]] *)
Definition str_row (row : value) : result (list string) :=
  mapM (fun key => v <- py_get row key (VStr EmptyString) ;; Ok (py_str v)) keys.

Definition enumerate {A} (l : list A) : list (nat * A) := imap pair l.

(** [widths[idx] = max(widths[idx], len(cell))] for every cell of a row.
    A row has as many cells as there are widths, so [idx] is in range. *)
Definition widen (widths : list nat) (row : list string) : list nat :=
  foldl (fun widths (ic : nat * string) =>
           <[fst ic := Nat.max (widths !!! fst ic) (String.length (snd ic))]> widths)
        widths (enumerate row).

Definition format_row (widths : list nat) (parts : list string) : string :=
  String.concat " | "
    (map (fun ip : nat * string => ljust (snd ip) (widths !!! fst ip))
         (enumerate parts)).

Definition render_table (rows : list value) : result string :=
  match rows with
  | [] => Ok "(no customers yet)"
  | _ =>
      str_rows <- mapM str_row rows ;;
      let widths := foldl widen (map String.length headers) str_rows in
      let horizontal :=
        String.concat "-+-" (map (repeat_char "-"%char) widths) in
      let lines :=
        [format_row widths headers; horizontal] ++ map (format_row widths) str_rows in
      Ok (String.concat newline lines)
  end.

(** ** find_customer *)

(** The dict returned is the list's own element, not a copy: the model
    returns its position, through which [edit_customer] changes it. *)
Fixpoint find_customer (customers : list value) (customer_id : Z)
    : result (option nat) :=
  match customers with
  | [] => Ok None
  | customer :: rest =>
      v <- py_get customer "id" VNone ;;
      if py_eq v (VInt customer_id) then Ok (Some O)
      else found <- find_customer rest customer_id ;; Ok (S <$> found)
  end.

(** ** The commands *)

(** What argparse hands to each command; an option that was not given on
    the command line is [None]. *)
Record add_args : Type := AddArgs {
  add_name : string;
  add_phone : option string;
  add_email : option string;
  add_notes : option string
}.

Record edit_args : Type := EditArgs {
  edit_id : Z;
  edit_name : option string;
  edit_phone : option string;
  edit_email : option string;
  edit_notes : option string
}.

Record delete_args : Type := DeleteArgs {
  delete_id : Z
}.

(** [x or ""] for an optional str. *)
Definition or_empty (x : option string) : string :=
  match x with
  | Some s => s          (* the empty str is falsy, and [""] is the result *)
  | None => EmptyString
  end.

(** [customer[key] = v] *)
Definition setitem (customer : value) (key : string) (v : value) : result value :=
  match customer with
  | VDict d => Ok (VDict (dict_set key v d))
  | _ => Raise TypeError
  end.

(** [if given is not None: customer[key] = given] *)
Definition assign_if_given (key : string) (given : option string)
    (customer : value) : result value :=
  match given with
  | Some s => setitem customer key (VStr s)
  | None => Ok customer
  end.

(** The four conditional assignments of [edit_customer]. *)
Definition apply_edits (args : edit_args) (customer : value) : result value :=
  c1 <- assign_if_given "name" (edit_name args) customer ;;
  c2 <- assign_if_given "phone" (edit_phone args) c1 ;;
  c3 <- assign_if_given "email" (edit_email args) c2 ;;
  assign_if_given "notes" (edit_notes args) c3.

Fixpoint filterM {A} (keep : A -> result bool) (l : list A) : result (list A) :=
  match l with
  | [] => Ok []
  | x :: rest =>
      k <- keep x ;;
      kept <- filterM keep rest ;;
      Ok (if k then x :: kept else kept)
  end.

(** [[c for c in customers if c.get("id") != customer_id]] *)
Definition remaining (customers : list value) (customer_id : Z)
    : result (list value) :=
  filterM (fun c => v <- py_get c "id" VNone ;; Ok (negb (py_eq v (VInt customer_id))))
          customers.

Definition not_found_message (customer_id : Z) : string :=
  "Customer with ID " +:+ str_of_int customer_id +:+ " not found.".

Section CommandsOfTheScript.
Context `{JsonModule}.

Definition list_customers : cmd unit :=
  customers <-- load_customers DATA_FILE ;;
  table <-- lift (render_table customers) ;;
  print table.

Definition add_customer (args : add_args) : cmd unit :=
  customers <-- load_customers DATA_FILE ;;
  new_id <-- lift (next_id customers) ;;
  let customer :=
    VDict [("id", new_id);
           ("name", VStr (add_name args));
           ("phone", VStr (or_empty (add_phone args)));
           ("email", VStr (or_empty (add_email args)));
           ("notes", VStr (or_empty (add_notes args)))] in
  let customers := customers ++ [customer] in
  save_customers customers DATA_FILE ;;;
  print "Added customer:" ;;;
  table <-- lift (render_table [customer]) ;;
  print table.

Definition edit_customer (args : edit_args) : cmd unit :=
  customers <-- load_customers DATA_FILE ;;
  found <-- lift (find_customer customers (edit_id args)) ;;
  match found with
  | None =>
      print (not_found_message (edit_id args)) ;;;
      sys_exit 1
  | Some i =>
      customer <-- lift (apply_edits args (default VNone (customers !! i))) ;;
      let customers := <[i := customer]> customers in
      save_customers customers DATA_FILE ;;;
      print "Updated customer:" ;;;
      table <-- lift (render_table [customer]) ;;
      print table
  end.

Definition delete_customer (args : delete_args) : cmd unit :=
  customers <-- load_customers DATA_FILE ;;
  found <-- lift (find_customer customers (delete_id args)) ;;
  match found with
  | None =>
      print (not_found_message (delete_id args)) ;;;
      sys_exit 1
  | Some _ =>
      customers <-- lift (remaining customers (delete_id args)) ;;
      save_customers customers DATA_FILE ;;;
      print ("Deleted customer " +:+ str_of_int (delete_id args) +:+ ".") ;;;
      match customers with
      | [] => ret tt
      | _ =>
          print "Remaining customers:" ;;;
          table <-- lift (render_table customers) ;;
          print table
      end
  end.

(** The parsed command line: the subcommand and its arguments. *)
Inductive command : Type :=
| CmdList
| CmdAdd (args : add_args)
| CmdEdit (args : edit_args)
| CmdDelete (args : delete_args).

(** [args.func(args)] *)
Definition main (c : command) : cmd unit :=
  match c with
  | CmdList => list_customers
  | CmdAdd args => add_customer args
  | CmdEdit args => edit_customer args
  | CmdDelete args => delete_customer args
  end.

End CommandsOfTheScript.

(** ** A reference implementation of the json module

    [encode] writes what [json.dumps(v, indent=n)] writes (ASCII only,
    items on lines of their own); [loads] reads JSON text whose numbers
    are integers and whose characters are below 256, and is [None] on
    any other text. *)
Module PyJson.

Definition in_range (lo n hi : nat) : bool := Nat.leb lo n && Nat.leb n hi.

Definition escape_char (c : ascii) : string :=
  let n := nat_of_ascii c in
  if Ascii.eqb c dquote_char then "\" +:+ dquote
  else if Ascii.eqb c "\"%char then "\\"
  else if Nat.eqb n 10 then "\n"
  else if Nat.eqb n 13 then "\r"
  else if Nat.eqb n 9 then "\t"
  else if Nat.eqb n 8 then "\b"
  else if Nat.eqb n 12 then "\f"
  else if in_range 32 n 126 then String c EmptyString
  else "\u00" +:+ hex2 c.

Fixpoint escape (s : string) : string :=
  match s with
  | EmptyString => EmptyString
  | String c rest => escape_char c +:+ escape rest
  end.

Definition encode_str (s : string) : string := dquote +:+ escape s +:+ dquote.

Definition newline_indent (indent level : nat) : string :=
  newline +:+ repeat_char " "%char (indent * level).

Fixpoint encode (indent level : nat) (v : value) : string :=
  match v with
  | VNone => "null"
  | VBool true => "true"
  | VBool false => "false"
  | VInt z => str_of_int z
  | VStr s => encode_str s
  | VList [] => "[]"
  | VList items =>
      "[" +:+ newline_indent indent (S level)
      +:+ String.concat ("," +:+ newline_indent indent (S level))
            (map (encode indent (S level)) items)
      +:+ newline_indent indent level +:+ "]"
  | VDict [] => "{}"
  | VDict d =>
      "{" +:+ newline_indent indent (S level)
      +:+ String.concat ("," +:+ newline_indent indent (S level))
            (map (fun kv : string * value =>
                    encode_str (fst kv) +:+ ": " +:+ encode indent (S level) (snd kv)) d)
      +:+ newline_indent indent level +:+ "}"
  end.

Definition dumps (indent : nat) (v : value) : string := encode indent 0 v.

Definition is_ws (c : ascii) : bool :=
  let n := nat_of_ascii c in
  Nat.eqb n 32 || Nat.eqb n 9 || Nat.eqb n 10 || Nat.eqb n 13.

Fixpoint skip_ws (s : string) : string :=
  match s with
  | String c rest => if is_ws c then skip_ws rest else s
  | EmptyString => EmptyString
  end.

Definition hex_value (c : ascii) : option nat :=
  let n := nat_of_ascii c in
  if in_range 48 n 57 then Some (n - 48)%nat
  else if in_range 97 n 102 then Some (n - 87)%nat
  else if in_range 65 n 70 then Some (n - 55)%nat
  else None.

(** The character of [\uXXXX], when it is below 256. *)
Definition unicode_escape (h1 h2 h3 h4 : ascii) : option ascii :=
  match hex_value h1, hex_value h2, hex_value h3, hex_value h4 with
  | Some a, Some b, Some c, Some d =>
      if Nat.eqb a 0 && Nat.eqb b 0 then Some (ascii_of_nat (16 * c + d)) else None
  | _, _, _, _ => None
  end.

Definition unescape (e : ascii) : option ascii :=
  if Ascii.eqb e dquote_char then Some dquote_char
  else if Ascii.eqb e "\"%char then Some "\"%char
  else if Ascii.eqb e "/"%char then Some "/"%char
  else if Ascii.eqb e "b"%char then Some (ascii_of_nat 8)
  else if Ascii.eqb e "f"%char then Some (ascii_of_nat 12)
  else if Ascii.eqb e "n"%char then Some (ascii_of_nat 10)
  else if Ascii.eqb e "r"%char then Some (ascii_of_nat 13)
  else if Ascii.eqb e "t"%char then Some (ascii_of_nat 9)
  else None.

Definition cons_char (c : ascii) (r : option (string * string))
    : option (string * string) :=
  match r with
  | Some (text, rest) => Some (String c text, rest)
  | None => None
  end.

(** The text of a string up to its closing quote, and what follows it. *)
Fixpoint scan_string (s : string) : option (string * string) :=
  match s with
  | EmptyString => None
  | String c r =>
      if Ascii.eqb c dquote_char then Some (EmptyString, r)
      else if Ascii.eqb c "\"%char then
        match r with
        | String e r1 =>
            if Ascii.eqb e "u"%char then
              match r1 with
              | String h1 (String h2 (String h3 (String h4 r2))) =>
                  match unicode_escape h1 h2 h3 h4 with
                  | Some ch => cons_char ch (scan_string r2)
                  | None => None
                  end
              | _ => None
              end
            else
              match unescape e with
              | Some ch => cons_char ch (scan_string r1)
              | None => None
              end
        | EmptyString => None
        end
      else if Nat.ltb (nat_of_ascii c) 32 then None
      else cons_char c (scan_string r)
  end.

Definition digit_of (c : ascii) : option (uint -> uint) :=
  nth (nat_of_ascii c - 48)
      (if Nat.leb 48 (nat_of_ascii c)
       then [Some D0; Some D1; Some D2; Some D3; Some D4;
             Some D5; Some D6; Some D7; Some D8; Some D9]
       else []) None.

Fixpoint read_digits (s : string) : uint * string :=
  match s with
  | String c r =>
      match digit_of c with
      | Some digit => let (d, rest) := read_digits r in (digit d, rest)
      | None => (Nil, s)
      end
  | EmptyString => (Nil, EmptyString)
  end.

(** [0|[1-9][0-9]*] *)
Definition scan_digits (s : string) : option (uint * string) :=
  match s with
  | String c r =>
      if Ascii.eqb c "0"%char then Some (D0 Nil, r)
      else match digit_of c with
           | Some _ => Some (read_digits s)
           | None => None
           end
  | EmptyString => None
  end.

Definition scan_int (s : string) : option (Z * string) :=
  match s with
  | String c r =>
      if Ascii.eqb c "-"%char then
        match scan_digits r with
        | Some (d, rest) => Some (Z.of_int (Neg d), rest)
        | None => None
        end
      else
        match scan_digits s with
        | Some (d, rest) => Some (Z.of_int (Pos d), rest)
        | None => None
        end
  | EmptyString => None
  end.

(** [dict(pairs)]: a repeated key keeps its first place and its last value. *)
Definition dict_of_pairs (pairs : list (string * value)) : list (string * value) :=
  foldl (fun d (kv : string * value) => dict_set (fst kv) (snd kv) d) [] pairs.

Fixpoint scan_value (fuel : nat) (s : string) : option (value * string) :=
  match fuel with
  | O => None
  | S fuel' =>
      match s with
      | String "n" (String "u" (String "l" (String "l" rest))) => Some (VNone, rest)
      | String "t" (String "r" (String "u" (String "e" rest))) => Some (VBool true, rest)
      | String "f" (String "a" (String "l" (String "s" (String "e" rest)))) =>
          Some (VBool false, rest)
      | String c r =>
          if Ascii.eqb c dquote_char then
            match scan_string r with
            | Some (text, rest) => Some (VStr text, rest)
            | None => None
            end
          else if Ascii.eqb c "["%char then
            match skip_ws r with
            | String "]" rest => Some (VList [], rest)
            | r1 =>
                match scan_items fuel' r1 with
                | Some (items, rest) => Some (VList items, rest)
                | None => None
                end
            end
          else if Ascii.eqb c "{"%char then
            match skip_ws r with
            | String "}" rest => Some (VDict [], rest)
            | r1 =>
                match scan_members fuel' r1 with
                | Some (pairs, rest) => Some (VDict (dict_of_pairs pairs), rest)
                | None => None
                end
            end
          else
            match scan_int s with
            | Some (z, rest) => Some (VInt z, rest)
            | None => None
            end
      | EmptyString => None
      end
  end
with scan_items (fuel : nat) (s : string) : option (list value * string) :=
  match fuel with
  | O => None
  | S fuel' =>
      match scan_value fuel' s with
      | Some (v, r) =>
          match skip_ws r with
          | String "," r1 =>
              match scan_items fuel' (skip_ws r1) with
              | Some (vs, rest) => Some (v :: vs, rest)
              | None => None
              end
          | String "]" rest => Some ([v], rest)
          | _ => None
          end
      | None => None
      end
  end
with scan_members (fuel : nat) (s : string)
    : option (list (string * value) * string) :=
  match fuel with
  | O => None
  | S fuel' =>
      match s with
      | String c r =>
          if Ascii.eqb c dquote_char then
            match scan_string r with
            | Some (key, r1) =>
                match skip_ws r1 with
                | String ":" r2 =>
                    match scan_value fuel' (skip_ws r2) with
                    | Some (v, r3) =>
                        match skip_ws r3 with
                        | String "," r4 =>
                            match scan_members fuel' (skip_ws r4) with
                            | Some (kvs, rest) => Some ((key, v) :: kvs, rest)
                            | None => None
                            end
                        | String "}" rest => Some ([(key, v)], rest)
                        | _ => None
                        end
                    | None => None
                    end
                | _ => None
                end
            | None => None
            end
          else None
      | EmptyString => None
      end
  end.

(** [json.loads]: one value, with blanks around it and nothing else. *)
Definition loads (s : string) : option value :=
  match scan_value (S (String.length s)) (skip_ws s) with
  | Some (v, rest) =>
      match skip_ws rest with
      | EmptyString => Some v
      | _ => None
      end
  | None => None
  end.

End PyJson.

#[export] Instance py_json : JsonLib :=
  {| json_dumps := PyJson.dumps; json_loads := PyJson.loads |}.

(** ** The reference reader under the interpreter's limits

    The scanner of [json.load] calls itself for every array and object it
    enters, and the interpreter stops it with RecursionError when they nest
    deeper than its recursion limit; the conversion of an integer literal
    raises ValueError when the literal has more digits than
    [sys.get_int_max_str_digits()].  Neither is a JSONDecodeError.  Both
    happen where the scanner stands, so text that is wrong further on does
    not matter. *)
Module PyJsonLimits.
Import PyJson.

Section Limits.
Variable recursion_limit : nat.   (* arrays and objects the scanner may be in *)
Variable max_str_digits : nat.    (* digits an integer literal may have *)

Definition decode_error {A} : result A := Raise JSONDecodeError.

Definition digits (z : Z) : nat := String.length (str_of_int (Z.abs z)).

Definition scan_number (s : string) : result (value * string) :=
  match scan_int s with
  | Some (z, rest) =>
      if Nat.ltb max_str_digits (digits z) then Raise ValueError
      else Ok (VInt z, rest)
  | None => decode_error
  end.

Fixpoint scan_value (fuel depth : nat) (s : string) : result (value * string) :=
  match fuel with
  | O => decode_error
  | S fuel' =>
      match s with
      | String "n" (String "u" (String "l" (String "l" rest))) => Ok (VNone, rest)
      | String "t" (String "r" (String "u" (String "e" rest))) => Ok (VBool true, rest)
      | String "f" (String "a" (String "l" (String "s" (String "e" rest)))) =>
          Ok (VBool false, rest)
      | String c r =>
          if Ascii.eqb c dquote_char then
            match scan_string r with
            | Some (text, rest) => Ok (VStr text, rest)
            | None => decode_error
            end
          else if Ascii.eqb c "["%char then
            if Nat.leb recursion_limit depth then Raise RecursionError
            else
              match skip_ws r with
              | String "]" rest => Ok (VList [], rest)
              | r1 =>
                  match scan_items fuel' (S depth) r1 with
                  | Ok (items, rest) => Ok (VList items, rest)
                  | Raise e => Raise e
                  end
              end
          else if Ascii.eqb c "{"%char then
            if Nat.leb recursion_limit depth then Raise RecursionError
            else
              match skip_ws r with
              | String "}" rest => Ok (VDict [], rest)
              | r1 =>
                  match scan_members fuel' (S depth) r1 with
                  | Ok (pairs, rest) => Ok (VDict (dict_of_pairs pairs), rest)
                  | Raise e => Raise e
                  end
              end
          else scan_number s
      | EmptyString => decode_error
      end
  end
with scan_items (fuel depth : nat) (s : string) : result (list value * string) :=
  match fuel with
  | O => decode_error
  | S fuel' =>
      match scan_value fuel' depth s with
      | Ok (v, r) =>
          match skip_ws r with
          | String "," r1 =>
              match scan_items fuel' depth (skip_ws r1) with
              | Ok (vs, rest) => Ok (v :: vs, rest)
              | Raise e => Raise e
              end
          | String "]" rest => Ok ([v], rest)
          | _ => decode_error
          end
      | Raise e => Raise e
      end
  end
with scan_members (fuel depth : nat) (s : string)
    : result (list (string * value) * string) :=
  match fuel with
  | O => decode_error
  | S fuel' =>
      match s with
      | String c r =>
          if Ascii.eqb c dquote_char then
            match scan_string r with
            | Some (key, r1) =>
                match skip_ws r1 with
                | String ":" r2 =>
                    match scan_value fuel' depth (skip_ws r2) with
                    | Ok (v, r3) =>
                        match skip_ws r3 with
                        | String "," r4 =>
                            match scan_members fuel' depth (skip_ws r4) with
                            | Ok (kvs, rest) => Ok ((key, v) :: kvs, rest)
                            | Raise e => Raise e
                            end
                        | String "}" rest => Ok ([(key, v)], rest)
                        | _ => decode_error
                        end
                    | Raise e => Raise e
                    end
                | _ => decode_error
                end
            | None => decode_error
            end
          else decode_error
      | EmptyString => decode_error
      end
  end.

(** [json.loads] under the two limits. *)
Definition loads (s : string) : result value :=
  match scan_value (S (2 * String.length s)) 0 (skip_ws s) with
  | Ok (v, rest) =>
      match skip_ws rest with
      | EmptyString => Ok v
      | _ => decode_error
      end
  | Raise e => Raise e
  end.

End Limits.

End PyJsonLimits.

(** The reference json module with a reader under the limits. *)
Definition py_json_within (recursion_limit max_str_digits : nat) : JsonModule := {|
  json_dump_writes indent v := (PyJson.dumps indent v, None);
  json_load_reads := PyJsonLimits.loads recursion_limit max_str_digits
|}.

(** * The notions of the specification *)

(** ** Ids *)

(** The number [next_id] reads from a record: its id when that is an int
    (or a bool, which is an int in Python), 0 when the record has none. *)
Definition id_number (r : dict) : option Z :=
  match dict_get "id" r with
  | Some v => as_int v
  | None => Some 0
  end.

(** The id [next_id] gives after the ids [ids]. *)
Definition next_number (ids : list Z) : Z :=
  match ids with
  | [] => 1
  | z :: zs => foldl Z.max z zs + 1
  end.

(** The id of a record, when it has one that is an int. *)
Definition record_id (r : dict) : option Z :=
  match dict_get "id" r with
  | Some v => as_int v
  | None => None
  end.

(** The records have the ids [ids], in order. *)
Definition ids_of (rows : list dict) (ids : list Z) : Prop :=
  Forall2 (fun r z => record_id r = Some z) rows ids.

(** The record's id equals [customer_id], as [==] has it. *)
Definition has_id (customer_id : Z) (r : dict) : bool :=
  match dict_get "id" r with
  | Some v => py_eq v (VInt customer_id)
  | None => false
  end.

(** ** The records the commands build *)

(** What the command line supplies for a key of the record. *)
Definition supplied (args : edit_args) (key : string) : option string :=
  if String.eqb key "name" then edit_name args
  else if String.eqb key "phone" then edit_phone args
  else if String.eqb key "email" then edit_email args
  else if String.eqb key "notes" then edit_notes args
  else None.

Definition set_if_given (key : string) (given : option string) (d : dict) : dict :=
  match given with
  | Some s => dict_set key (VStr s) d
  | None => d
  end.

(** The record [edit_customer] leaves in place of [r]. *)
Definition edited (args : edit_args) (r : dict) : dict :=
  set_if_given "notes" (edit_notes args)
    (set_if_given "email" (edit_email args)
      (set_if_given "phone" (edit_phone args)
        (set_if_given "name" (edit_name args) r))).

(** The record [add_customer] builds. *)
Definition new_customer (new_id : Z) (args : add_args) : dict :=
  [("id", VInt new_id);
   ("name", VStr (add_name args));
   ("phone", VStr (or_empty (add_phone args)));
   ("email", VStr (or_empty (add_email args)));
   ("notes", VStr (or_empty (add_notes args)))].

(** ** The table as the specification lays it out *)

(** The text of a field: its [str], and the empty string when the record
    has no such field. *)
Definition cell (r : dict) (key : string) : string :=
  match dict_get key r with
  | Some v => py_str v
  | None => EmptyString
  end.

Definition cells (r : dict) : list string := map (cell r) keys.
Arguments cells : simpl never.

(** The width of column [j]: the largest of the length of its header and
    the lengths of its cells. *)
Definition column_width (rows : list dict) (j : nat) (header : string) : nat :=
  max_list (String.length header
            :: map (fun r => String.length (cells r !!! j)) rows).

Definition table_widths (rows : list dict) : list nat :=
  imap (column_width rows) headers.

(** Every part left-justified to the width of its column, joined by
    [" | "]. *)
Definition justified_row (widths : list nat) (parts : list string) : string :=
  String.concat " | " (zip_with ljust parts widths).

(** A run of ["-"] per column, joined by ["-+-"]. *)
Definition separator_line (widths : list nat) : string :=
  String.concat "-+-" (map (repeat_char "-"%char) widths).

Definition rendered (rows : list dict) : string :=
  let widths := table_widths rows in
  String.concat newline
    (justified_row widths headers
     :: separator_line widths
     :: map (fun r => justified_row widths (cells r)) rows).

(** ** The store of a world *)

Section Stores.
Context `{JsonLib}.

(** The sequence a file's text stands for: the parsed document when it is
    a list, the empty sequence otherwise. *)
Definition sequence_of_text (text : string) : list value :=
  match json_loads text with
  | Some (VList data) => data
  | Some _ => []
  | None => []
  end.

(** The store a world holds at [path]. *)
Definition stored_at (path : string) (w : world) : list value :=
  match files w !! path with
  | Some text => sequence_of_text text
  | None => []
  end.

(** The store the commands read and write. *)
Definition stored (w : world) : list value := stored_at DATA_FILE w.

(** The world after the records [rows] were saved and [lines] printed. *)
Definition saved_and_printed (w : world) (rows : list dict) (lines : list string)
    : world :=
  World (<[DATA_FILE := json_dumps 2 (VList (map VDict rows))]> (files w))
        (stdout w ++ lines).

End Stores.

(** ** Commands and ids *)

(** How a command changes the ids of the store it saves. *)
Definition ids_after (c : command) (ids ids' : list Z) : Prop :=
  match c with
  | CmdList => ids' = ids
  | CmdAdd _ => ids' = ids ++ [next_number ids]
  | CmdEdit _ => ids' = ids
  | CmdDelete _ => sublist ids' ids
  end.

(** ** Well-formed values *)

(** A value whose dicts have no key twice, as every Python dict. *)
Inductive well_formed : value -> Prop :=
| wf_none : well_formed VNone
| wf_bool (b : bool) : well_formed (VBool b)
| wf_int (z : Z) : well_formed (VInt z)
| wf_str (s : string) : well_formed (VStr s)
| wf_list (items : list value) :
    Forall well_formed items -> well_formed (VList items)
| wf_dict (d : list (string * value)) :
    NoDup (map fst d) ->
    Forall (fun kv => well_formed (snd kv)) d ->
    well_formed (VDict d).

(** ** The text the reference json module writes *)

Module PyJsonText.
Import PyJson.

(** The text that follows a number does not begin with a digit. *)
Definition no_digit_ahead (rest : string) : Prop :=
  match rest with
  | String c _ => digit_of c = None
  | EmptyString => True
  end.

(** The first character of a value's text: no blank and no closing
    bracket. *)
Definition value_head (c : ascii) : bool :=
  negb (is_ws c) && negb (Ascii.eqb c "]"%char) && negb (Ascii.eqb c "}"%char).

Definition int_head (c : ascii) : bool :=
  match digit_of c with
  | Some _ => true
  | None => Ascii.eqb c "-"%char
  end.

(** The depth of calls the scanner needs for a value. *)
Fixpoint vsize (v : value) : nat :=
  match v with
  | VList items =>
      S ((fix sum (l : list value) : nat :=
            match l with
            | [] => O
            | x :: l' => S (vsize x + sum l')
            end) items)
  | VDict d =>
      S ((fix sum (l : list (string * value)) : nat :=
            match l with
            | [] => O
            | kv :: l' => S (vsize (snd kv) + sum l')
            end) d)
  | _ => O
  end.

Fixpoint items_size (l : list value) : nat :=
  match l with
  | [] => O
  | x :: l' => S (vsize x + items_size l')
  end.

Fixpoint members_size (l : list (string * value)) : nat :=
  match l with
  | [] => O
  | kv :: l' => S (vsize (snd kv) + members_size l')
  end.

(** The text of the items of a list, and of the members of a dict. *)
Definition items_text (indent level : nat) (items : list value) : string :=
  String.concat ("," +:+ newline_indent indent level)
    (map (encode indent level) items).

Definition member_text (indent level : nat) (kv : string * value) : string :=
  encode_str (fst kv) +:+ ": " +:+ encode indent level (snd kv).

Definition members_text (indent level : nat) (d : list (string * value)) : string :=
  String.concat ("," +:+ newline_indent indent level)
    (map (member_text indent level) d).

End PyJsonText.

(** ** Example records and worlds *)

Definition ann : dict :=
  [("id", VInt 1); ("name", VStr "Ann"); ("phone", VStr "555-1000");
   ("email", VStr EmptyString); ("notes", VStr EmptyString)].

Definition bo : dict :=
  [("id", VInt 2); ("name", VStr "Bo"); ("phone", VStr EmptyString);
   ("email", VStr "bo@example.org"); ("notes", VStr EmptyString)].

Definition world_of (rows : list dict) : world :=
  World {[ DATA_FILE := PyJson.dumps 2 (VList (map VDict rows)) ]} [].

(** ** Dicts among the values *)

(** The value is a dict: it has the method [get]. *)
Definition is_dict (v : value) : bool :=
  match v with
  | VDict _ => true
  | _ => false
  end.

(** ** The world after a save and after prints *)

(** The world after [text] was written to the data file. *)
Definition written (w : world) (text : string) : world :=
  World (<[DATA_FILE := text]> (files w)) (stdout w).

(** The world after [lines] were printed. *)
Definition printed (w : world) (lines : list string) : world :=
  World (files w) (stdout w ++ lines).

(** ** Values that [str] prints under the interpreter's limits

    [str] of [None], of a bool and of a str returns whatever the limits;
    [str] of an int raises ValueError when the int has more digits than
    [sys.get_int_max_str_digits()].  The model's [str_of_int] has no such
    limit, so statements about what [render_table] raises are made for
    rows whose values are of these kinds. *)
Definition plain (max_str_digits : nat) (v : value) : bool :=
  match v with
  | VNone | VBool _ | VStr _ => true
  | VInt z => Nat.leb (PyJsonLimits.digits z) max_str_digits
  | VList _ | VDict _ => false
  end.

(** A row that is a dict holds plain values only. *)
Definition plain_row (max_str_digits : nat) (row : value) : bool :=
  match row with
  | VDict d => forallb (fun kv : string * value => plain max_str_digits (snd kv)) d
  | _ => true
  end.

(** * Properties *)

(** ** load_customers *)

Section LoadWithAnyModule.
Context `{JsonModule}.

Lemma load_customers_missing (path : string) (w : world) :
  files w !! path = None -> load_customers path w = (w, Ok []).
Proof.
  intros Hfile.
  unfold load_customers, bind, os_path_exists. rewrite Hfile. reflexivity.
Qed.

Lemma load_customers_reads (path : string) (w : world) (text : string) :
  files w !! path = Some text ->
  load_customers path w =
  (w, match json_load_reads text with
      | Ok (VList data) => Ok data
      | Ok _ => Ok []
      | Raise e => if is_JSONDecodeError e then Ok [] else Raise e
      end).
Proof.
  intros Hfile.
  unfold load_customers, bind, os_path_exists, try_except, json_load, read_text,
    bind, ret, lift.
  rewrite Hfile. simpl. rewrite Hfile.
  destruct (json_load_reads text) as [[]|e]; try reflexivity.
  simpl. destruct (is_JSONDecodeError e); reflexivity.
Qed.

Lemma load_customers_world (path : string) (w : world) :
  fst (load_customers path w) = w.
Proof.
  destruct (files w !! path) as [text|] eqn:Hfile.
  - rewrite (load_customers_reads path w text Hfile). reflexivity.
  - rewrite (load_customers_missing path w Hfile). reflexivity.
Qed.

(** C6, amended to what the code does.  [load_customers] leaves the world
    as it is.
    It returns the empty sequence when the file does not exist, when
    [json.load] raises JSONDecodeError, and when the parsed document is not
    a list; it returns the parsed list otherwise.  Any other exception
    that [json.load] raises is not caught: [load_customers] raises it. *)
Theorem load_customers_cases (path : string) (w : world) :
  fst (load_customers path w) = w /\
  (files w !! path = None -> snd (load_customers path w) = Ok []) /\
  (forall text : string,
     files w !! path = Some text ->
     match json_load_reads text with
     | Ok (VList data) => snd (load_customers path w) = Ok data
     | Ok _ => snd (load_customers path w) = Ok []
     | Raise JSONDecodeError => snd (load_customers path w) = Ok []
     | Raise e => snd (load_customers path w) = Raise e
     end).
Proof.
  split; [apply load_customers_world|]. split.
  - intros Hfile. rewrite (load_customers_missing path w Hfile). reflexivity.
  - intros text Hfile. rewrite (load_customers_reads path w text Hfile).
    destruct (json_load_reads text) as [[]|[]]; reflexivity.
Qed.

End LoadWithAnyModule.

(** A data file of 2000 opening brackets is no JSON document, and the
    scanner is inside more arrays than the recursion limit allows (1000,
    the interpreter's default) before it can find that out: [json.load]
    raises RecursionError, and so does [load_customers]. *)
Lemma load_customers_raises_on_deep_text :
  let text := repeat_char "["%char 2000 in
  let w := World {[ DATA_FILE := text ]} [] in
  PyJson.loads text = None /\
  @load_customers (py_json_within 1000 4300) DATA_FILE w = (w, Raise RecursionError).
Proof. intros text w. split; vm_compute; reflexivity. Qed.

Section Load.
Context `{JsonLib}.

Lemma load_customers_run (path : string) (w : world) :
  load_customers path w = (w, Ok (stored_at path w)).
Proof.
  unfold load_customers, stored_at, sequence_of_text, bind, os_path_exists,
    try_except, json_load, read_text, bind, ret, lift.
  destruct (files w !! path) as [text|] eqn:Hfile; simpl.
  - rewrite Hfile. destruct (json_loads text) as [[]|]; reflexivity.
  - reflexivity.
Qed.

End Load.

(** ** next_id *)

Lemma py_gt_numbers (a b : value) (x y : Z) :
  as_int a = Some x -> as_int b = Some y -> py_gt a b = Ok (Z.gtb x y).
Proof.
  destruct a, b; simpl; intros Ha Hb; try discriminate;
    injection Ha as <-; injection Hb as <-; reflexivity.
Qed.

Lemma py_add_numbers (a b : value) (x y : Z) :
  as_int a = Some x -> as_int b = Some y -> py_add a b = Ok (VInt (x + y)).
Proof.
  destruct a, b; simpl; intros Ha Hb; try discriminate;
    injection Ha as <-; injection Hb as <-; reflexivity.
Qed.

Lemma py_get_id_number (r : dict) (z : Z) :
  id_number r = Some z ->
  exists v, py_get (VDict r) "id" (VInt 0) = Ok v /\ as_int v = Some z.
Proof.
  unfold id_number, py_get. destruct (dict_get "id" r) as [v|]; intros Hz.
  - exists v. split; [reflexivity | exact Hz].
  - exists (VInt 0). split; [reflexivity | exact Hz].
Qed.

Lemma max_id_numbers (rows : list dict) (ids : list Z) :
  Forall2 (fun r z => id_number r = Some z) rows ids ->
  forall (cur : value) (m : Z),
    as_int cur = Some m ->
    exists best, max_id cur (map VDict rows) = Ok best /\
                 as_int best = Some (foldl Z.max m ids).
Proof.
  induction 1 as [|r z rows ids Hr _ IH]; intros cur m Hcur;
    cbn [max_id map foldl].
  - exists cur. split; [reflexivity | exact Hcur].
  - destruct (py_get_id_number r z Hr) as (v & Hget & Hv).
    rewrite Hget. cbn [rbind].
    rewrite (py_gt_numbers v cur z m Hv Hcur). cbn [rbind].
    destruct (Z.gtb_spec z m) as [Hgt|Hle].
    + replace (Z.max m z) with z by lia. apply IH, Hv.
    + replace (Z.max m z) with m by lia. apply IH, Hcur.
Qed.

Lemma foldl_max_ge (ids : list Z) (m : Z) :
  m <= foldl Z.max m ids /\ Forall (fun z => z <= foldl Z.max m ids) ids.
Proof.
  revert m. induction ids as [|z ids IH]; intros m; simpl.
  - split; [lia | constructor].
  - destruct (IH (Z.max m z)) as [Hm Hall]. split; [lia|].
    constructor; [lia | exact Hall].
Qed.

Lemma foldl_max_elem (ids : list Z) (m : Z) :
  foldl Z.max m ids = m \/ foldl Z.max m ids ∈ ids.
Proof.
  revert m. induction ids as [|z ids IH]; intros m; simpl.
  - left. reflexivity.
  - destruct (IH (Z.max m z)) as [Heq|Hin].
    + rewrite Heq. destruct (Z.max_spec m z) as [[_ ->]|[_ ->]].
      * right. left.
      * left. reflexivity.
    + right. right. exact Hin.
Qed.

(** C2. [next_id] of the empty sequence is 1.  For a non-empty sequence
    of records whose ids are ints (a record without an id counting as 0)
    it is [m + 1], where [m] is the maximum of these numbers: one of
    them, and not below any of them.  So the result is strictly greater
    than every existing id. *)
Theorem next_id_spec (rows : list dict) (ids : list Z) :
  Forall2 (fun r z => id_number r = Some z) rows ids ->
  next_id [] = Ok (VInt 1) /\
  (rows <> [] ->
   exists m : Z,
     next_id (map VDict rows) = Ok (VInt (m + 1)) /\
     m ∈ ids /\
     Forall (fun z => z <= m) ids /\
     Forall (fun z => z < m + 1) ids).
Proof.
  intros Hids. split; [reflexivity|]. intros Hne.
  destruct Hids as [|r z rows ids Hr Hrest]; [congruence|]. clear Hne.
  destruct (py_get_id_number r z Hr) as (v & Hget & Hv).
  destruct (max_id_numbers rows ids Hrest v z Hv) as (best & Hmax & Hbest).
  exists (foldl Z.max z ids). cbn [next_id map]. rewrite Hget. cbn [rbind].
  rewrite Hmax. cbn [rbind].
  destruct (foldl_max_ge ids z) as [Hz Hall].
  split; [apply (py_add_numbers best (VInt 1) _ 1 Hbest eq_refl)|].
  split.
  - destruct (foldl_max_elem ids z) as [->|Hin]; [left | right; exact Hin].
  - split; constructor; try lia; try exact Hall.
    eapply Forall_impl; [exact Hall|]. simpl. intros; lia.
Qed.

Lemma next_id_spec_witness :
  Forall2 (fun r z => id_number r = Some z)
    [[("id", VInt 1)]; [("name", VStr "Bo")]; [("id", VInt 5)]] [1; 0; 5] /\
  exists m : Z,
    next_id (map VDict [[("id", VInt 1)]; [("name", VStr "Bo")]; [("id", VInt 5)]])
      = Ok (VInt (m + 1)) /\
    m ∈ [1; 0; 5] /\
    Forall (fun z => z <= m) [1; 0; 5] /\
    Forall (fun z => z < m + 1) [1; 0; 5].
Proof.
  assert (Hids : Forall2 (fun r z => id_number r = Some z)
            [[("id", VInt 1)]; [("name", VStr "Bo")]; [("id", VInt 5)]] [1; 0; 5])
    by (repeat constructor).
  split; [exact Hids|].
  apply (proj2 (next_id_spec _ _ Hids)). discriminate.
Defined.

(** ** dict lookups after an assignment *)

Lemma dict_get_set (key key' : string) (v : value) (d : dict) :
  dict_get key' (dict_set key v d) =
  if String.eqb key key' then Some v else dict_get key' d.
Proof.
  induction d as [|[k w] d IH]; simpl.
  - reflexivity.
  - destruct (String.eqb_spec k key) as [->|Hk]; simpl.
    + destruct (String.eqb_spec key key'); reflexivity.
    + destruct (String.eqb_spec k key') as [->|Hk'].
      * destruct (String.eqb_spec key key'); [congruence | reflexivity].
      * exact IH.
Qed.

Lemma dict_set_keys (key : string) (v : value) (d : dict) :
  dict_get key d <> None -> map fst (dict_set key v d) = map fst d.
Proof.
  induction d as [|[k w] d IH]; simpl; [congruence|].
  destruct (String.eqb_spec k key); simpl; [reflexivity|].
  intros Hd. f_equal. apply IH, Hd.
Qed.

(** ** The partial update of edit_customer *)

Lemma assign_if_given_dict (key : string) (given : option string) (d : dict) :
  assign_if_given key given (VDict d) = Ok (VDict (set_if_given key given d)).
Proof. destruct given; reflexivity. Qed.

Lemma apply_edits_dict (args : edit_args) (d : dict) :
  apply_edits args (VDict d) =
  Ok (VDict (set_if_given "notes" (edit_notes args)
              (set_if_given "email" (edit_email args)
                (set_if_given "phone" (edit_phone args)
                  (set_if_given "name" (edit_name args) d))))).
Proof.
  unfold apply_edits. rewrite !assign_if_given_dict. cbn [rbind].
  rewrite !assign_if_given_dict. cbn [rbind].
  rewrite !assign_if_given_dict. cbn [rbind].
  apply assign_if_given_dict.
Qed.

Lemma dict_get_set_if_given (key key' : string) (given : option string) (d : dict) :
  dict_get key' (set_if_given key given d) =
  match (if String.eqb key key' then given else None) with
  | Some s => Some (VStr s)
  | None => dict_get key' d
  end.
Proof.
  destruct given as [s|]; simpl.
  - rewrite dict_get_set. destruct (String.eqb key key'); reflexivity.
  - destruct (String.eqb key key'); reflexivity.
Qed.

(** C3. The update of [edit_customer] returns the record with, under each
    of name, phone, email and notes, the supplied value when one was
    supplied (the empty string included) and the old binding when none
    was; every other key keeps its binding; and with nothing supplied the
    record is returned as it was. *)
Theorem apply_edits_spec (args : edit_args) (d : dict) :
  exists d' : dict,
    apply_edits args (VDict d) = Ok (VDict d') /\
    (forall key : string,
       dict_get key d' =
       match supplied args key with
       | Some s => Some (VStr s)
       | None => dict_get key d
       end) /\
    (edit_name args = None -> edit_phone args = None ->
     edit_email args = None -> edit_notes args = None -> d' = d).
Proof.
  eexists. split; [apply apply_edits_dict|]. split.
  - intros key. rewrite !dict_get_set_if_given. unfold supplied.
    rewrite !(String.eqb_sym key).
    destruct (String.eqb_spec "name" key) as [<-|_];
      [simpl; destruct (edit_notes args), (edit_email args), (edit_phone args),
         (edit_name args); reflexivity|].
    destruct (String.eqb_spec "phone" key) as [<-|_];
      [simpl; destruct (edit_notes args), (edit_email args), (edit_phone args);
         reflexivity|].
    destruct (String.eqb_spec "email" key) as [<-|_];
      [simpl; destruct (edit_notes args), (edit_email args); reflexivity|].
    destruct (String.eqb_spec "notes" key) as [<-|_];
      [simpl; destruct (edit_notes args); reflexivity|].
    reflexivity.
  - intros -> -> -> ->. reflexivity.
Qed.

(** ** find_customer *)

Lemma py_get_id_eq (customer_id : Z) (r : dict) :
  exists v, py_get (VDict r) "id" VNone = Ok v /\
            py_eq v (VInt customer_id) = has_id customer_id r.
Proof.
  unfold py_get, has_id. destruct (dict_get "id" r) as [v|]; eauto.
Qed.

(** [find_customer] returns the position of the first record with the id:
    no record before it has the id. *)
Lemma find_customer_first (customer_id : Z) (rows : list dict) :
  find_customer (map VDict rows) customer_id =
  Ok (fst <$> list_find (fun r => has_id customer_id r = true) rows).
Proof.
  induction rows as [|r rows IH]; cbn [find_customer map list_find].
  - reflexivity.
  - destruct (py_get_id_eq customer_id r) as (v & -> & Hv). cbn [rbind].
    rewrite Hv. destruct (has_id customer_id r) eqn:Hr.
    + rewrite decide_True by reflexivity. reflexivity.
    + rewrite decide_False by discriminate. rewrite IH. cbn [rbind].
      destruct (list_find _ rows) as [[i x]|]; reflexivity.
Qed.

Lemma find_customer_none (customer_id : Z) (rows : list dict) :
  Forall (fun r => has_id customer_id r = false) rows ->
  find_customer (map VDict rows) customer_id = Ok None.
Proof.
  intros Hnone. rewrite find_customer_first.
  destruct (list_find _ rows) as [[i r]|] eqn:Hfind; [|reflexivity].
  apply list_find_Some in Hfind as (Hi & Hr & _).
  rewrite Forall_lookup in Hnone. specialize (Hnone i r Hi). congruence.
Qed.

(** ** Running the commands *)

Section Runs.
Context `{JsonLib}.

Lemma bind_load {A} (k : list value -> cmd A) (w : world) :
  bind (load_customers DATA_FILE) k w = k (stored w) w.
Proof. unfold bind. rewrite load_customers_run. reflexivity. Qed.

Lemma bind_lift_ok {A B} (r : result A) (a : A) (k : A -> cmd B) (w : world) :
  r = Ok a -> bind (lift r) k w = k a w.
Proof. intros ->. reflexivity. Qed.

Lemma bind_lift_raise {A B} (r : result A) (e : exn) (k : A -> cmd B) (w : world) :
  r = Raise e -> bind (lift r) k w = (w, Raise e).
Proof. intros ->. reflexivity. Qed.

Lemma bind_print {B} (line : string) (k : unit -> cmd B) (w : world) :
  bind (print line) k w = k tt (World (files w) (stdout w ++ [line])).
Proof. reflexivity. Qed.

Lemma bind_save {B} (customers : list value) (k : unit -> cmd B) (w : world) :
  bind (save_customers customers DATA_FILE) k w =
  k tt (World (<[DATA_FILE := json_dumps 2 (VList customers)]> (files w)) (stdout w)).
Proof. reflexivity. Qed.

Lemma edit_customer_not_found (args : edit_args) (w : world) :
  find_customer (stored w) (edit_id args) = Ok None ->
  edit_customer args w =
  (World (files w) (stdout w ++ [not_found_message (edit_id args)]),
   Raise (SystemExit 1)).
Proof.
  intros Hfind. unfold edit_customer. rewrite bind_load.
  rewrite (bind_lift_ok _ _ _ _ Hfind). reflexivity.
Qed.

Lemma delete_customer_not_found (args : delete_args) (w : world) :
  find_customer (stored w) (delete_id args) = Ok None ->
  delete_customer args w =
  (World (files w) (stdout w ++ [not_found_message (delete_id args)]),
   Raise (SystemExit 1)).
Proof.
  intros Hfind. unfold delete_customer. rewrite bind_load.
  rewrite (bind_lift_ok _ _ _ _ Hfind). reflexivity.
Qed.

(** C4. When no record of the store has the id, [edit_customer] and
    [delete_customer] print one line naming the id, end the process with
    status 1 and write no file: the files, and so the store, are as
    before. *)
Theorem not_found_exits_without_write (w : world) (rows : list dict)
    (e : edit_args) (d : delete_args) :
  stored w = map VDict rows ->
  Forall (fun r => has_id (edit_id e) r = false) rows ->
  delete_id d = edit_id e ->
  Forall (fun run : cmd unit =>
            files (fst (run w)) = files w /\
            stored (fst (run w)) = stored w /\
            stdout (fst (run w)) =
              stdout w ++ ["Customer with ID " +:+ str_of_int (edit_id e) +:+ " not found."] /\
            snd (run w) = Raise (SystemExit 1) /\
            exit_status (snd (run w)) = 1)
         [edit_customer e; delete_customer d].
Proof.
  intros Hstore Hnone Hid.
  pose proof (find_customer_none _ _ Hnone) as Hfind. rewrite <- Hstore in Hfind.
  repeat constructor.
  all: try (rewrite edit_customer_not_found by exact Hfind; reflexivity).
  all: rewrite delete_customer_not_found by (rewrite Hid; exact Hfind);
    rewrite ?Hid; reflexivity.
Qed.

End Runs.

Lemma not_found_exits_without_write_witness :
  let w := world_of [ann] in
  let e := EditArgs 2 (Some "New Name") None None None in
  Forall (fun run : cmd unit =>
            files (fst (run w)) = files w /\
            stored (fst (run w)) = stored w /\
            stdout (fst (run w)) =
              stdout w ++ ["Customer with ID " +:+ str_of_int (edit_id e) +:+ " not found."] /\
            snd (run w) = Raise (SystemExit 1) /\
            exit_status (snd (run w)) = 1)
         [edit_customer e; delete_customer (DeleteArgs 2)].
Proof.
  intros w e.
  apply (not_found_exits_without_write w [ann] e (DeleteArgs 2)).
  - vm_compute. reflexivity.
  - repeat constructor.
  - reflexivity.
Defined.

(** ** render_table *)

Lemma str_row_dict (r : dict) : str_row (VDict r) = Ok (cells r).
Proof.
  unfold str_row, cells, cell, keys, py_get. cbn [mapM rbind map].
  repeat f_equal; destruct (dict_get _ r); reflexivity.
Qed.

Lemma str_rows_dicts (rows : list dict) :
  mapM str_row (map VDict rows) = Ok (map cells rows).
Proof.
  induction rows as [|r rows IH]; cbn [mapM map]; [reflexivity|].
  rewrite str_row_dict, IH. reflexivity.
Qed.

(** One row widens the widths position by position. *)
Lemma widen_from (row : list string) :
  forall (before after : list nat),
    length after = length row ->
    foldl (fun widths (ic : nat * string) =>
             <[fst ic := Nat.max (widths !!! fst ic) (String.length (snd ic))]> widths)
          (before ++ after)
          (imap (fun i c => (length before + i, c)%nat) row) =
    before ++ zip_with Nat.max after (map String.length row).
Proof.
  induction row as [|c row IH]; intros before after Hlen.
  - destruct after; [reflexivity | discriminate].
  - destruct after as [|a after]; [discriminate|].
    injection Hlen as Hlen.
    cbn [imap foldl fst snd map zip_with].
    rewrite Nat.add_0_r.
    rewrite (lookup_total_app_r before (a :: after)) by lia.
    rewrite Nat.sub_diag. cbn [lookup_total list_lookup_total].
    rewrite (insert_app_r_alt before (a :: after)) by lia.
    rewrite Nat.sub_diag. cbn [insert list_insert].
    rewrite (cons_middle _ before after).
    rewrite app_assoc.
    rewrite (imap_ext _ (fun i x => (length (before ++ [Nat.max a (String.length c)]) + i, x)%nat))
      by (intros i x _; simpl; rewrite length_app; simpl; f_equal; lia).
    rewrite IH by exact Hlen.
    rewrite <- app_assoc. reflexivity.
Qed.

Lemma widen_zip (widths : list nat) (row : list string) :
  length widths = length row ->
  widen widths row = zip_with Nat.max widths (map String.length row).
Proof.
  intros Hlen. unfold widen, enumerate.
  apply (widen_from row [] widths Hlen).
Qed.

Lemma length_cells (r : dict) : length (cells r) = length headers.
Proof. reflexivity. Qed.

(** All the rows widen the widths to the column maxima. *)
Lemma widen_all (rows : list dict) :
  forall (widths : list nat),
    length widths = length headers ->
    foldl widen widths (map cells rows) =
    imap (fun j w => max_list (w :: map (fun r => String.length (cells r !!! j)) rows))
         widths.
Proof.
  induction rows as [|r rows IH]; intros widths Hlen; cbn [foldl map].
  - apply list_eq. intros j. rewrite list_lookup_imap.
    destruct (widths !! j) as [w|]; cbn; [f_equal; lia | reflexivity].
  - rewrite widen_zip by (rewrite length_cells; exact Hlen).
    rewrite IH by (rewrite length_zip_with, length_map, length_cells; lia).
    apply list_eq. intros j.
    rewrite !list_lookup_imap, lookup_zip_with.
    rewrite list_lookup_fmap.
    destruct (widths !! j) as [w|] eqn:Hw; [|reflexivity].
    assert (Hj : (j < length (cells r))%nat)
      by (rewrite length_cells, <- Hlen; eapply lookup_lt_Some, Hw).
    apply lookup_lt_is_Some in Hj as [c Hc].
    rewrite Hc. cbn. rewrite (list_lookup_total_correct _ _ _ Hc).
    f_equal. lia.
Qed.

Lemma widths_of_rows (rows : list dict) :
  foldl widen (map String.length headers) (map cells rows) = table_widths rows.
Proof.
  rewrite widen_all by reflexivity.
  unfold table_widths, column_width. rewrite imap_fmap. reflexivity.
Qed.

Lemma justify_from (widths : list nat) (parts : list string) :
  forall k : nat,
    (k + length parts <= length widths)%nat ->
    map (fun ip : nat * string => ljust (snd ip) (widths !!! fst ip))
        (imap (fun i c => (k + i, c)%nat) parts) =
    zip_with ljust parts (drop k widths).
Proof.
  induction parts as [|c parts IH]; intros k Hk; [reflexivity|].
  cbn [imap map fst snd length] in *. rewrite Nat.add_0_r.
  rewrite (imap_ext _ (fun i x => (S k + i, x)%nat))
    by (intros; simpl; f_equal; lia).
  rewrite IH by lia.
  destruct (lookup_lt_is_Some_2 widths k) as [w Hw]; [lia|].
  rewrite (drop_S _ _ _ Hw), (list_lookup_total_correct _ _ _ Hw).
  reflexivity.
Qed.

Lemma format_row_justified (widths : list nat) (parts : list string) :
  length parts = length widths ->
  format_row widths parts = justified_row widths parts.
Proof.
  intros Hlen. unfold format_row, justified_row, enumerate. f_equal.
  pose proof (justify_from widths parts 0) as Hfrom.
  rewrite drop_0 in Hfrom. apply Hfrom. simpl. lia.
Qed.

Lemma length_table_widths (rows : list dict) :
  length (table_widths rows) = length headers.
Proof. unfold table_widths. apply length_imap. Qed.

Lemma render_table_nonempty (rows : list dict) :
  rows <> [] ->
  render_table (map VDict rows) = Ok (rendered rows).
Proof.
  intros Hne. destruct rows as [|r rows]; [congruence|].
  unfold render_table, rendered. cbn [map].
  change (VDict r :: map VDict rows) with (map VDict (r :: rows)).
  rewrite str_rows_dicts. cbn [rbind].
  rewrite widths_of_rows. cbn [app].
  rewrite format_row_justified by (rewrite length_table_widths; reflexivity).
  rewrite map_map.
  rewrite (map_ext _ (fun r' => justified_row (table_widths (r :: rows)) (cells r'))).
  - reflexivity.
  - intros r'. apply format_row_justified.
    rewrite length_table_widths. apply length_cells.
Qed.

(** C5. For a non-empty sequence of records, [render_table] returns the
    header row, then the separator line, then one row per record in the
    order of the sequence, joined by newlines.  The width of a column is
    the largest of the length of its header and the lengths of its cells;
    every part, headers included, is left-justified to that width and the
    parts of a row are joined by [" | "]; the separator line has a run of
    ["-"] of each width, joined by ["-+-"]; a missing field is the empty
    string and any other field is its [str], the decimal numeral for an
    int. *)
Theorem render_table_layout (rows : list dict) :
  rows <> [] ->
  render_table (map VDict rows) = Ok (rendered rows) /\
  (forall (j : nat) (header : string),
     headers !! j = Some header ->
     let lengths :=
       String.length header :: map (fun r => String.length (cells r !!! j)) rows in
     column_width rows j header ∈ lengths /\
     Forall (fun n => (n <= column_width rows j header)%nat) lengths) /\
  (forall (r : dict) (key : string),
     dict_get key r = None -> cell r key = EmptyString) /\
  (forall (r : dict) (key : string) (z : Z),
     dict_get key r = Some (VInt z) -> cell r key = str_of_int z).
Proof.
  intros Hne. split; [apply render_table_nonempty, Hne|]. split; [|split].
  - intros j header _ lengths. unfold column_width. fold lengths. split.
    + apply max_list_elem_of. discriminate.
    + apply Forall_forall. intros n Hn. apply max_list_elem_of_le, Hn.
  - intros r key Hnone. unfold cell. rewrite Hnone. reflexivity.
  - intros r key z Hz. unfold cell. rewrite Hz. reflexivity.
Qed.

Lemma render_table_layout_witness :
  [ann] <> [] /\ render_table (map VDict [ann]) = Ok (rendered [ann]).
Proof.
  split; [discriminate | apply (render_table_layout [ann]); discriminate].
Defined.

(** The table of the example, line by line. *)
Example rendered_ann :
  rendered [ann] =
  String.concat newline
    ["ID | Name | Phone    | Email | Notes";
     "---+------+----------+-------+------";
     "1  | Ann  | 555-1000 |       |      "].
Proof. vm_compute. reflexivity. Qed.

(** ** delete: the records that remain *)

Lemma remaining_dicts (customer_id : Z) (rows : list dict) :
  remaining (map VDict rows) customer_id =
  Ok (map VDict (filter (fun r => has_id customer_id r = false) rows)).
Proof.
  unfold remaining.
  induction rows as [|r rows IH]; cbn [filterM map]; [reflexivity|].
  destruct (py_get_id_eq customer_id r) as (v & -> & Hv). cbn [rbind].
  rewrite IH, Hv. cbn [rbind]. rewrite filter_cons.
  destruct (has_id customer_id r); reflexivity.
Qed.

(** Whatever the list holds: when the filter returns, no record it kept
    has the id. *)
Lemma find_customer_remaining (customer_id : Z) (customers : list value) :
  forall kept : list value,
    remaining customers customer_id = Ok kept ->
    find_customer kept customer_id = Ok None.
Proof.
  unfold remaining.
  induction customers as [|c customers IH]; intros kept; cbn [filterM].
  - intros [= <-]. reflexivity.
  - destruct (py_get c "id" VNone) as [v|e] eqn:Hget; cbn [rbind]; [|discriminate].
    destruct (filterM _ customers) as [kept'|e]; cbn [rbind]; [|discriminate].
    specialize (IH kept' eq_refl).
    destruct (py_eq v (VInt customer_id)) eqn:Hv; cbn [negb]; intros [= <-].
    + exact IH.
    + cbn [find_customer]. rewrite Hget. cbn [rbind]. rewrite Hv, IH. reflexivity.
Qed.

(** C9. When the filter of [delete_customer] returns a sequence,
    [find_customer] with the deleted id returns [None] on it. *)
Theorem find_after_delete (customers kept : list value) (customer_id : Z) :
  remaining customers customer_id = Ok kept ->
  find_customer kept customer_id = Ok None.
Proof. apply find_customer_remaining. Qed.

Lemma find_after_delete_witness :
  remaining (map VDict [ann; [("id", VInt 2)]; ann]) 1 = Ok [VDict [("id", VInt 2)]] /\
  find_customer [VDict [("id", VInt 2)]] 1 = Ok None.
Proof.
  split; [reflexivity|].
  apply (find_after_delete (map VDict [ann; [("id", VInt 2)]; ann]) _ 1).
  reflexivity.
Defined.

(** ** The commands on a store of records *)

Lemma next_id_numbers (rows : list dict) (ids : list Z) :
  Forall2 (fun r z => id_number r = Some z) rows ids ->
  next_id (map VDict rows) = Ok (VInt (next_number ids)).
Proof.
  intros [|r z rows' ids' Hr Hrest]; [reflexivity|].
  destruct (py_get_id_number r z Hr) as (v & Hget & Hv).
  destruct (max_id_numbers rows' ids' Hrest v z Hv) as (best & Hmax & Hbest).
  cbn [next_id map next_number]. rewrite Hget. cbn [rbind].
  rewrite Hmax. cbn [rbind].
  apply (py_add_numbers best (VInt 1) _ 1 Hbest eq_refl).
Qed.

Lemma render_table_dicts (rows : list dict) :
  render_table (map VDict rows) =
  Ok (match rows with [] => "(no customers yet)" | _ => rendered rows end).
Proof.
  destruct rows as [|r rows]; [reflexivity|].
  apply render_table_nonempty. discriminate.
Qed.

Section RunsOnRecords.
Context `{JsonLib}.

Lemma list_customers_run (w : world) (rows : list dict) :
  stored w = map VDict rows ->
  list_customers w =
  (World (files w)
     (stdout w ++ [match rows with [] => "(no customers yet)" | _ => rendered rows end]),
   Ok tt).
Proof.
  intros Hstore. unfold list_customers. rewrite bind_load, Hstore.
  rewrite (bind_lift_ok _ _ _ _ (render_table_dicts rows)). reflexivity.
Qed.

Lemma add_customer_run (args : add_args) (w : world) (rows : list dict)
    (ids : list Z) :
  stored w = map VDict rows ->
  Forall2 (fun r z => id_number r = Some z) rows ids ->
  add_customer args w =
  (saved_and_printed w (rows ++ [new_customer (next_number ids) args])
     ["Added customer:"; rendered [new_customer (next_number ids) args]],
   Ok tt).
Proof.
  intros Hstore Hids. unfold add_customer. rewrite bind_load, Hstore.
  rewrite (bind_lift_ok _ _ _ _ (next_id_numbers rows ids Hids)).
  rewrite bind_save, bind_print.
  change [VDict ?c] with (map VDict [c]).
  rewrite (bind_lift_ok _ _ _ _ (render_table_dicts _)).
  unfold saved_and_printed, print. cbn [files stdout].
  rewrite <- app_assoc, map_app. reflexivity.
Qed.

Lemma edit_customer_found (args : edit_args) (w : world) (rows : list dict)
    (i : nat) (r : dict) :
  stored w = map VDict rows ->
  list_find (fun r => has_id (edit_id args) r = true) rows = Some (i, r) ->
  edit_customer args w =
  (saved_and_printed w (<[i := edited args r]> rows)
     ["Updated customer:"; rendered [edited args r]],
   Ok tt).
Proof.
  intros Hstore Hfind. unfold edit_customer. rewrite bind_load, Hstore.
  rewrite (bind_lift_ok _ (Some i)) by (rewrite find_customer_first, Hfind; reflexivity).
  apply list_find_Some in Hfind as (Hi & _ & _).
  rewrite list_lookup_fmap, Hi. cbn [fmap option_fmap option_map default].
  rewrite (bind_lift_ok _ _ _ _ (apply_edits_dict args r)).
  fold (edited args r).
  rewrite bind_save, bind_print.
  change [VDict ?c] with (map VDict [c]).
  rewrite (bind_lift_ok _ _ _ _ (render_table_dicts _)).
  unfold saved_and_printed, print. cbn [files stdout].
  rewrite <- app_assoc, list_fmap_insert. reflexivity.
Qed.

Lemma delete_customer_found (args : delete_args) (w : world) (rows : list dict)
    (i : nat) (r : dict) :
  stored w = map VDict rows ->
  list_find (fun r => has_id (delete_id args) r = true) rows = Some (i, r) ->
  delete_customer args w =
  (saved_and_printed w (filter (fun r => has_id (delete_id args) r = false) rows)
     (("Deleted customer " +:+ str_of_int (delete_id args) +:+ ".")
      :: match filter (fun r => has_id (delete_id args) r = false) rows with
         | [] => []
         | kept => ["Remaining customers:"; rendered kept]
         end),
   Ok tt).
Proof.
  intros Hstore Hfind. unfold delete_customer. rewrite bind_load, Hstore.
  rewrite (bind_lift_ok _ (Some i)) by (rewrite find_customer_first, Hfind; reflexivity).
  rewrite (bind_lift_ok _ _ _ _ (remaining_dicts _ rows)).
  rewrite bind_save, bind_print.
  unfold saved_and_printed.
  destruct (filter _ rows) as [|k kept]; [reflexivity|].
  cbn [map]. change (VDict k :: map VDict kept) with (map VDict (k :: kept)).
  rewrite bind_print.
  rewrite (bind_lift_ok _ _ _ _ (render_table_dicts _)).
  unfold print. cbn [files stdout].
  rewrite <- !app_assoc. reflexivity.
Qed.

End RunsOnRecords.

(** ** delete_customer: what it prints *)

Lemma find_existing (customer_id : Z) (rows : list dict) :
  Exists (fun r => has_id customer_id r = true) rows ->
  exists i r, list_find (fun r => has_id customer_id r = true) rows = Some (i, r).
Proof.
  intros Hex. apply Exists_exists in Hex as (r & Hin & Hr).
  destruct (list_find_elem_of (fun r => has_id customer_id r = true) rows r Hin Hr)
    as [[i r'] Hfind].
  eauto.
Qed.

Section Delete.
Context `{JsonLib}.

(** C1, amended to what the code does.  After a delete of an id the store has,
    [delete_customer] returns normally and prints the line
    "Deleted customer <id>."; when records remain it then prints the line
    "Remaining customers:" and the table of the remaining records; when
    none remain it prints nothing more.  The table of the empty sequence
    is the placeholder text. *)
Theorem delete_customer_prints (w : world) (rows : list dict) (args : delete_args) :
  stored w = map VDict rows ->
  Exists (fun r => has_id (delete_id args) r = true) rows ->
  snd (delete_customer args w) = Ok tt /\
  stdout (fst (delete_customer args w)) =
    stdout w
    ++ ("Deleted customer " +:+ str_of_int (delete_id args) +:+ ".")
       :: match filter (fun r => has_id (delete_id args) r = false) rows with
          | [] => []
          | kept => ["Remaining customers:"; rendered kept]
          end /\
  (forall kept, kept = filter (fun r => has_id (delete_id args) r = false) rows ->
     kept <> [] -> render_table (map VDict kept) = Ok (rendered kept)) /\
  render_table [] = Ok "(no customers yet)".
Proof.
  intros Hstore Hex.
  destruct (find_existing _ _ Hex) as (i & r & Hfind).
  rewrite (delete_customer_found args w rows i r Hstore Hfind).
  cbn [fst snd saved_and_printed stdout].
  repeat split. intros kept _ Hne. apply render_table_nonempty, Hne.
Qed.

End Delete.

Lemma stored_world_of_two : stored (world_of [ann; bo]) = map VDict [ann; bo].
Proof. vm_compute. reflexivity. Qed.

Lemma delete_customer_prints_witness :
  let w := world_of [ann; bo] in
  let args := DeleteArgs 1 in
  snd (delete_customer args w) = Ok tt /\
  stdout (fst (delete_customer args w)) =
    stdout w
    ++ ("Deleted customer " +:+ str_of_int (delete_id args) +:+ ".")
       :: match filter (fun r => has_id (delete_id args) r = false) [ann; bo] with
          | [] => []
          | kept => ["Remaining customers:"; rendered kept]
          end /\
  (forall kept, kept = filter (fun r => has_id (delete_id args) r = false) [ann; bo] ->
     kept <> [] -> render_table (map VDict kept) = Ok (rendered kept)) /\
  render_table [] = Ok "(no customers yet)".
Proof.
  intros w args.
  apply (delete_customer_prints w [ann; bo] args).
  - exact stored_world_of_two.
  - left. reflexivity.
Defined.

(** Deleting the only record: the command prints the confirmation and no
    table, so the table of the remaining (empty) store, the placeholder
    text, is not among the lines printed. *)
Lemma delete_last_prints_no_table :
  let w := world_of [ann] in
  let w' := fst (delete_customer (DeleteArgs 1) w) in
  snd (delete_customer (DeleteArgs 1) w) = Ok tt /\
  stored w' = [] /\
  stdout w' = ["Deleted customer 1."] /\
  ~ (exists table, render_table (stored w') = Ok table /\ table ∈ stdout w').
Proof.
  intros w w'.
  assert (Hstored : stored w' = []) by (vm_compute; reflexivity).
  assert (Hout : stdout w' = ["Deleted customer 1."]) by (vm_compute; reflexivity).
  split; [vm_compute; reflexivity|].
  split; [exact Hstored|]. split; [exact Hout|].
  intros (table & Htable & Hin).
  rewrite Hstored in Htable. injection Htable as <-.
  rewrite Hout in Hin. apply list_elem_of_singleton in Hin. discriminate.
Qed.

(** ** Unique ids *)

Lemma record_id_number (r : dict) (z : Z) :
  record_id r = Some z -> id_number r = Some z.
Proof.
  unfold record_id, id_number. destruct (dict_get "id" r); [trivial | discriminate].
Qed.

Lemma next_number_above (ids : list Z) : Forall (fun z => z < next_number ids) ids.
Proof.
  destruct ids as [|z ids]; [constructor|]. cbn [next_number].
  destruct (foldl_max_ge ids z) as [Hz Hall].
  constructor; [lia|]. eapply Forall_impl; [exact Hall|]. simpl. intros; lia.
Qed.

Lemma next_number_fresh (ids : list Z) : next_number ids ∉ ids.
Proof.
  intros Hin. pose proof (next_number_above ids) as Habove.
  rewrite Forall_forall in Habove. specialize (Habove _ Hin). lia.
Qed.

Lemma record_id_edited (args : edit_args) (r : dict) :
  record_id (edited args r) = record_id r.
Proof.
  unfold record_id, edited. rewrite !dict_get_set_if_given. reflexivity.
Qed.

Lemma ids_of_filter (keep : dict -> Prop) `{forall r, Decision (keep r)}
    (rows : list dict) (ids : list Z) :
  ids_of rows ids ->
  exists ids', ids_of (filter keep rows) ids' /\ sublist ids' ids.
Proof.
  induction 1 as [|r z rows ids Hr _ (ids' & Hids' & Hsub)].
  - exists []. split; constructor.
  - rewrite filter_cons. destruct (decide (keep r)).
    + exists (z :: ids'). split; [constructor; assumption | constructor; assumption].
    + exists ids'. split; [assumption | constructor; assumption].
Qed.

Section UniqueIds.
Context `{JsonLib}.

(** C8. From a store whose records have ids that are ints, no two of
    them equal, every command either leaves the files as they are or
    saves a store whose records again have int ids, no two of them
    equal: add appends one record, with the id [next_id] gives, which no
    record has; edit keeps the ids; delete keeps some of the records. *)
Theorem ids_stay_unique (w : world) (rows : list dict) (ids : list Z) (c : command) :
  stored w = map VDict rows ->
  ids_of rows ids ->
  NoDup ids ->
  files (fst (main c w)) = files w \/
  exists (rows' : list dict) (ids' : list Z),
    files (fst (main c w)) =
      <[DATA_FILE := json_dumps 2 (VList (map VDict rows'))]> (files w) /\
    ids_of rows' ids' /\
    NoDup ids' /\
    ids_after c ids ids'.
Proof.
  intros Hstore Hids Hnodup. destruct c as [|args|args|args]; cbn [main ids_after].
  - left. rewrite (list_customers_run w rows Hstore). reflexivity.
  - right.
    assert (Hnum : Forall2 (fun r z => id_number r = Some z) rows ids)
      by (eapply Forall2_impl; [exact Hids | apply record_id_number]).
    rewrite (add_customer_run args w rows ids Hstore Hnum).
    exists (rows ++ [new_customer (next_number ids) args]), (ids ++ [next_number ids]).
    split; [reflexivity|]. split; [|split; [|reflexivity]].
    + apply Forall2_app; [exact Hids|]. repeat constructor.
    + apply NoDup_app. split; [exact Hnodup|]. split.
      * intros z Hz Hin. apply list_elem_of_singleton in Hin as ->.
        exact (next_number_fresh ids Hz).
      * apply NoDup_singleton.
  - destruct (list_find (fun r => has_id (edit_id args) r = true) rows)
      as [[i r]|] eqn:Hfind.
    + right. rewrite (edit_customer_found args w rows i r Hstore Hfind).
      exists (<[i := edited args r]> rows), ids.
      split; [reflexivity|]. split; [|split; [exact Hnodup | reflexivity]].
      apply list_find_Some in Hfind as (Hi & _ & _).
      destruct (Forall2_lookup_l _ _ _ _ _ Hids Hi) as (z & Hz & Hrz).
      rewrite <- (list_insert_id ids i z Hz).
      apply Forall2_insert; [exact Hids|].
      rewrite record_id_edited. exact Hrz.
    + left. rewrite edit_customer_not_found; [reflexivity|].
      rewrite Hstore, find_customer_first, Hfind. reflexivity.
  - destruct (list_find (fun r => has_id (delete_id args) r = true) rows)
      as [[i r]|] eqn:Hfind.
    + right. rewrite (delete_customer_found args w rows i r Hstore Hfind).
      destruct (ids_of_filter (fun r => has_id (delete_id args) r = false) rows ids Hids)
        as (ids' & Hids' & Hsub).
      exists (filter (fun r => has_id (delete_id args) r = false) rows), ids'.
      split; [reflexivity|]. split; [exact Hids'|].
      split; [eapply sublist_NoDup; eassumption | exact Hsub].
    + left. rewrite delete_customer_not_found; [reflexivity|].
      rewrite Hstore, find_customer_first, Hfind. reflexivity.
Qed.

End UniqueIds.

Lemma ids_stay_unique_witness :
  let w := world_of [ann; bo] in
  let c := CmdAdd (AddArgs "Zed" None None None) in
  files (fst (main c w)) = files w \/
  exists (rows' : list dict) (ids' : list Z),
    files (fst (main c w)) =
      <[DATA_FILE := json_dumps 2 (VList (map VDict rows'))]> (files w) /\
    ids_of rows' ids' /\
    NoDup ids' /\
    ids_after c [1; 2] ids'.
Proof.
  intros w c.
  apply (ids_stay_unique w [ann; bo] [1; 2] c).
  - exact stored_world_of_two.
  - repeat constructor.
  - apply (bool_decide_unpack _). vm_compute. exact I.
Defined.

(** ** delete removes every match, edit changes the first *)

Lemma has_id_false (customer_id : Z) (r : dict) :
  has_id customer_id r = false <->
  dict_get "id" r = None \/
  exists v, dict_get "id" r = Some v /\ py_eq v (VInt customer_id) = false.
Proof.
  unfold has_id. destruct (dict_get "id" r) as [v|]; split.
  - intros Hv. right. eauto.
  - intros [|(v' & [= <-] & Hv)]; [discriminate | exact Hv].
  - intros _. left. reflexivity.
  - reflexivity.
Qed.

Section DeleteAndEdit.
Context `{JsonLib}.

(** C10. The filter of [delete_customer] keeps, in their order, exactly
    the records whose id is absent or unequal to the target: every record
    with the target id is removed, however many there are, and a record
    without an id is kept.  [find_customer] returns the first record with
    the id, and [edit_customer] saves the store with that one record
    replaced and every other record, a later one with the same id
    included, as it was. *)
Theorem delete_keeps_the_others (rows : list dict) (customer_id : Z) :
  let kept := filter (fun r => has_id customer_id r = false) rows in
  remaining (map VDict rows) customer_id = Ok (map VDict kept) /\
  sublist kept rows /\
  (forall r, r ∈ kept <->
     r ∈ rows /\
     (dict_get "id" r = None \/
      exists v, dict_get "id" r = Some v /\ py_eq v (VInt customer_id) = false)) /\
  (forall r, r ∈ rows -> dict_get "id" r = None -> r ∈ kept) /\
  (forall i, find_customer (map VDict rows) customer_id = Ok (Some i) ->
     exists r, rows !! i = Some r /\ has_id customer_id r = true /\
       forall j r', rows !! j = Some r' -> (j < i)%nat -> has_id customer_id r' = false) /\
  (forall (w : world) (args : edit_args) (i : nat),
     stored w = map VDict rows ->
     edit_id args = customer_id ->
     find_customer (map VDict rows) customer_id = Ok (Some i) ->
     exists r r', rows !! i = Some r /\
       apply_edits args (VDict r) = Ok (VDict r') /\
       files (fst (edit_customer args w)) =
         <[DATA_FILE := json_dumps 2 (VList (map VDict (<[i := r']> rows)))]> (files w) /\
       forall j, j <> i -> <[i := r']> rows !! j = rows !! j).
Proof.
  intros kept. split; [apply remaining_dicts|].
  split; [apply sublist_filter|].
  split; [|split; [|split]].
  - intros r. unfold kept. rewrite list_elem_of_filter, has_id_false. tauto.
  - intros r Hin Hnone. unfold kept. apply list_elem_of_filter.
    split; [|exact Hin]. apply has_id_false. left. exact Hnone.
  - intros i. rewrite find_customer_first. intros [= Hfind].
    destruct (list_find _ rows) as [[i' r]|] eqn:Hlf; [|discriminate].
    injection Hfind as ->.
    apply list_find_Some in Hlf as (Hi & Hr & Hbefore).
    exists r. split; [exact Hi|]. split; [exact Hr|].
    intros j r' Hj Hlt. specialize (Hbefore j r' Hj Hlt).
    destruct (has_id customer_id r'); [congruence | reflexivity].
  - intros w args i Hstore <-. rewrite find_customer_first. intros [= Hfind].
    destruct (list_find _ rows) as [[i' r]|] eqn:Hlf; [|discriminate].
    injection Hfind as ->.
    exists r, (edited args r).
    rewrite (edit_customer_found args w rows i r Hstore Hlf).
    apply list_find_Some in Hlf as (Hi & _ & _).
    split; [exact Hi|]. split; [apply apply_edits_dict|].
    split; [reflexivity|].
    intros j Hj. apply list_lookup_insert_ne. congruence.
Qed.

End DeleteAndEdit.

(** Two records with the id 1: delete removes both, find returns the
    first. *)
Example delete_all_find_first :
  remaining (map VDict [bo; ann; [("name", VStr "Cy")]; ann]) 1
    = Ok (map VDict [bo; [("name", VStr "Cy")]]) /\
  find_customer (map VDict [bo; ann; [("name", VStr "Cy")]; ann]) 1 = Ok (Some 1%nat).
Proof. split; reflexivity. Qed.

(** ** The reference json module reads back what it writes *)

Lemma app_cons (c : ascii) (s t : string) : String c s +:+ t = String c (s +:+ t).
Proof. reflexivity. Qed.

Lemma app_nil_l (t : string) : EmptyString +:+ t = t.
Proof. reflexivity. Qed.

Lemma app_assoc (s t u : string) : (s +:+ t) +:+ u = s +:+ (t +:+ u).
Proof.
  induction s as [|c s IH]; [reflexivity|].
  rewrite !app_cons, IH. reflexivity.
Qed.

Lemma length_app (s t : string) :
  String.length (s +:+ t) = (String.length s + String.length t)%nat.
Proof.
  induction s as [|c s IH]; [reflexivity|].
  rewrite app_cons. simpl. rewrite IH. reflexivity.
Qed.

Module PyJsonFacts.
Import PyJson PyJsonText.

(** *** Strings *)

Lemma scan_escape_char (c : ascii) (tail : string) :
  scan_string (escape_char c +:+ tail) = cons_char c (scan_string tail).
Proof.
  destruct c as [[] [] [] [] [] [] [] []]; reflexivity.
Qed.

Lemma scan_string_escape (s rest : string) :
  scan_string (escape s +:+ dquote +:+ rest) = Some (s, rest).
Proof.
  induction s as [|c s IH].
  - reflexivity.
  - cbn [escape]. rewrite app_assoc, scan_escape_char, IH. reflexivity.
Qed.

(** *** Integers *)

Lemma read_digits_stop (rest : string) :
  no_digit_ahead rest -> read_digits rest = (Nil, rest).
Proof.
  destruct rest as [|c rest]; [reflexivity|]. simpl. intros ->. reflexivity.
Qed.

Lemma read_digits_uint (d : uint) (rest : string) :
  no_digit_ahead rest ->
  read_digits (NilEmpty.string_of_uint d +:+ rest) = (d, rest).
Proof.
  intros Hrest. induction d; cbn [NilEmpty.string_of_uint];
    rewrite ?app_nil_l, ?app_cons;
    [apply read_digits_stop, Hrest | ..];
    cbn [read_digits]; rewrite IHd; reflexivity.
Qed.

(** The decimal digits of a positive number begin with a digit that is
    not 0. *)
Lemma to_uint_text (p : positive) :
  exists c s, NilEmpty.string_of_uint (Pos.to_uint p) = String c s /\
    Ascii.eqb c "0"%char = false /\
    is_Some (digit_of c).
Proof.
  pose proof (DecimalZ.to_of (Pos (Pos.to_uint p))) as Hnorm.
  change (Z.of_int (Pos (Pos.to_uint p))) with (Z.of_uint (Pos.to_uint p)) in Hnorm.
  assert (Hback : Z.to_int (Z.of_uint (Pos.to_uint p)) = Pos (Pos.to_uint p))
    by (change (Z.of_uint (Pos.to_uint p)) with (Z.of_int (Z.to_int (Z.pos p)));
        rewrite DecimalZ.of_to; reflexivity).
  rewrite Hback in Hnorm. cbn [norm] in Hnorm. injection Hnorm as Hnorm.
  pose proof (DecimalPos.Unsigned.to_uint_nonzero p) as Hnz.
  assert (Hhead : nzhead (Pos.to_uint p) = Pos.to_uint p).
  { rewrite Hnorm at 2. symmetry. apply DecimalFacts.unorm_nzhead.
    intros Hnil. apply DecimalFacts.unorm_0 in Hnil. congruence. }
  pose proof (DecimalFacts.nzhead_nonzero (Pos.to_uint p)) as Hno0.
  rewrite Hhead in Hno0.
  pose proof (DecimalPos.Unsigned.to_uint_nonnil p) as Hnonnil.
  destruct (Pos.to_uint p) as [|d|d|d|d|d|d|d|d|d|d]; [congruence | ..].
  1: exfalso; exact (Hno0 d eq_refl).
  all: cbn [NilEmpty.string_of_uint]; eexists _, _; split; [reflexivity|];
    split; [reflexivity | eexists; reflexivity].
Qed.

Lemma scan_digits_positive (p : positive) (rest : string) :
  no_digit_ahead rest ->
  scan_digits (NilZero.string_of_uint (Pos.to_uint p) +:+ rest) =
  Some (Pos.to_uint p, rest).
Proof.
  intros Hrest.
  assert (Htext : NilZero.string_of_uint (Pos.to_uint p) =
                  NilEmpty.string_of_uint (Pos.to_uint p)).
  { pose proof (DecimalPos.Unsigned.to_uint_nonnil p).
    destruct (Pos.to_uint p); [congruence | reflexivity ..]. }
  rewrite Htext.
  destruct (to_uint_text p) as (c & s & Hcs & Hnot0 & [digit Hdigit]).
  rewrite <- (read_digits_uint (Pos.to_uint p) rest Hrest).
  rewrite Hcs, app_cons. unfold scan_digits. rewrite Hnot0, Hdigit. reflexivity.
Qed.

Lemma digit_not_minus (c : ascii) :
  is_Some (digit_of c) -> Ascii.eqb c "-"%char = false.
Proof.
  destruct c as [[] [] [] [] [] [] [] []]; intros [d Hd];
    first [reflexivity | discriminate].
Qed.

Lemma scan_int_str_of_int (z : Z) (rest : string) :
  no_digit_ahead rest ->
  scan_int (str_of_int z +:+ rest) = Some (z, rest).
Proof.
  intros Hrest. unfold str_of_int. destruct z as [|p|p]; cbn [Z.to_int NilZero.string_of_int].
  - reflexivity.
  - pose proof (scan_digits_positive p rest Hrest) as Hscan.
    assert (Htext : NilZero.string_of_uint (Pos.to_uint p) =
                    NilEmpty.string_of_uint (Pos.to_uint p)).
    { pose proof (DecimalPos.Unsigned.to_uint_nonnil p).
      destruct (Pos.to_uint p); [congruence | reflexivity ..]. }
    destruct (to_uint_text p) as (c & s & Hcs & _ & Hdigit).
    rewrite Htext, Hcs, app_cons in *. unfold scan_int.
    rewrite (digit_not_minus c Hdigit), Hscan.
    do 2 f_equal. exact (DecimalZ.of_to (Z.pos p)).
  - rewrite app_cons. unfold scan_int. cbn [Ascii.eqb Bool.eqb].
    rewrite (scan_digits_positive p rest Hrest).
    do 2 f_equal. exact (DecimalZ.of_to (Z.neg p)).
Qed.

(** *** Values *)

Lemma skip_ws_head (c : ascii) (s : string) :
  value_head c = true -> skip_ws (String c s) = String c s.
Proof.
  unfold value_head. cbn [skip_ws]. destruct (is_ws c); [discriminate | reflexivity].
Qed.

Lemma skip_ws_spaces (n : nat) (s : string) :
  skip_ws (repeat_char " "%char n +:+ s) = skip_ws s.
Proof. induction n as [|n IH]; [reflexivity | exact IH]. Qed.

Lemma skip_ws_newline_indent (indent level : nat) (s : string) :
  skip_ws (newline_indent indent level +:+ s) = skip_ws s.
Proof.
  unfold newline_indent, newline. rewrite app_assoc, app_cons, app_nil_l.
  cbn [skip_ws]. change (is_ws (ascii_of_nat 10)) with true. cbn iota.
  apply skip_ws_spaces.
Qed.

Lemma scan_value_int (fuel : nat) (c : ascii) (r : string) :
  int_head c = true ->
  scan_value (S fuel) (String c r) =
  match scan_int (String c r) with
  | Some (z, rest) => Some (VInt z, rest)
  | None => None
  end.
Proof.
  destruct c as [[] [] [] [] [] [] [] []]; intros Hc;
    first [discriminate Hc | reflexivity].
Qed.

Lemma scan_value_str (fuel : nat) (r : string) :
  scan_value (S fuel) (String dquote_char r) =
  match scan_string r with
  | Some (text, rest) => Some (VStr text, rest)
  | None => None
  end.
Proof. reflexivity. Qed.

Lemma scan_value_list (fuel : nat) (r : string) (c : ascii) (s : string) :
  skip_ws r = String c s ->
  value_head c = true ->
  scan_value (S fuel) (String "[" r) =
  match scan_items fuel (String c s) with
  | Some (items, rest) => Some (VList items, rest)
  | None => None
  end.
Proof.
  intros Hr Hc. cbn [scan_value]. cbn. rewrite Hr.
  destruct c as [[] [] [] [] [] [] [] []];
    first [discriminate Hc | reflexivity].
Qed.

Lemma scan_value_dict (fuel : nat) (r : string) (c : ascii) (s : string) :
  skip_ws r = String c s ->
  value_head c = true ->
  scan_value (S fuel) (String "{" r) =
  match scan_members fuel (String c s) with
  | Some (pairs, rest) => Some (VDict (dict_of_pairs pairs), rest)
  | None => None
  end.
Proof.
  intros Hr Hc. cbn [scan_value]. cbn. rewrite Hr.
  destruct c as [[] [] [] [] [] [] [] []];
    first [discriminate Hc | reflexivity].
Qed.

Lemma scan_items_more (fuel : nat) (s : string) (v : value) (x : string) :
  scan_value fuel s = Some (v, String "," x) ->
  scan_items (S fuel) s =
  match scan_items fuel (skip_ws x) with
  | Some (vs, rest) => Some (v :: vs, rest)
  | None => None
  end.
Proof. intros Hv. cbn [scan_items]. rewrite Hv. reflexivity. Qed.

Lemma scan_items_last (fuel : nat) (s : string) (v : value) (r rest : string) :
  scan_value fuel s = Some (v, r) ->
  skip_ws r = String "]" rest ->
  scan_items (S fuel) s = Some ([v], rest).
Proof. intros Hv Hr. cbn [scan_items]. rewrite Hv, Hr. reflexivity. Qed.

Lemma scan_members_more (fuel : nat) (r r1 r2 r4 : string) (key : string) (v : value) :
  scan_string r = Some (key, r1) ->
  skip_ws r1 = String ":" r2 ->
  scan_value fuel (skip_ws r2) = Some (v, String "," r4) ->
  scan_members (S fuel) (String dquote_char r) =
  match scan_members fuel (skip_ws r4) with
  | Some (kvs, rest) => Some ((key, v) :: kvs, rest)
  | None => None
  end.
Proof.
  intros Hkey Hcolon Hv. cbn [scan_members].
  change (Ascii.eqb dquote_char dquote_char) with true. cbn iota.
  rewrite Hkey, Hcolon, Hv. reflexivity.
Qed.

Lemma scan_members_last (fuel : nat) (r r1 r2 r3 rest : string) (key : string)
    (v : value) :
  scan_string r = Some (key, r1) ->
  skip_ws r1 = String ":" r2 ->
  scan_value fuel (skip_ws r2) = Some (v, r3) ->
  skip_ws r3 = String "}" rest ->
  scan_members (S fuel) (String dquote_char r) = Some ([(key, v)], rest).
Proof.
  intros Hkey Hcolon Hv Hclose. cbn [scan_members].
  change (Ascii.eqb dquote_char dquote_char) with true. cbn iota.
  rewrite Hkey, Hcolon, Hv, Hclose. reflexivity.
Qed.

Lemma vsize_list (items : list value) : vsize (VList items) = S (items_size items).
Proof. reflexivity. Qed.

Lemma vsize_dict (d : list (string * value)) : vsize (VDict d) = S (members_size d).
Proof. reflexivity. Qed.

Lemma int_head_value_head (c : ascii) : int_head c = true -> value_head c = true.
Proof.
  destruct c as [[] [] [] [] [] [] [] []]; intros Hc;
    first [discriminate Hc | reflexivity].
Qed.

Lemma str_of_int_head (z : Z) :
  exists c s, str_of_int z = String c s /\ int_head c = true.
Proof.
  unfold str_of_int. destruct z as [|p|p]; cbn [Z.to_int NilZero.string_of_int].
  - eexists _, _. split; reflexivity.
  - pose proof (DecimalPos.Unsigned.to_uint_nonnil p) as Hnonnil.
    destruct (to_uint_text p) as (c & s & Hcs & _ & [digit Hdigit]).
    exists c, s. split.
    + rewrite <- Hcs. destruct (Pos.to_uint p); [congruence | reflexivity ..].
    + unfold int_head. rewrite Hdigit. reflexivity.
  - eexists _, _. split; reflexivity.
Qed.

Lemma encode_head (indent level : nat) (v : value) :
  exists c s, encode indent level v = String c s /\ value_head c = true.
Proof.
  destruct v as [|[]|z|text|[|x items]|[|kv d]];
    try (eexists _, _; split; reflexivity).
  destruct (str_of_int_head z) as (c & s & Hcs & Hc).
  exists c, s. split; [exact Hcs | apply int_head_value_head, Hc].
Qed.

Lemma encode_list (indent level : nat) (x : value) (items : list value) :
  encode indent level (VList (x :: items)) =
  String "[" (newline_indent indent (S level)
              +:+ items_text indent (S level) (x :: items)
              +:+ newline_indent indent level +:+ "]").
Proof. reflexivity. Qed.

Lemma encode_dict (indent level : nat) (kv : string * value)
    (d : list (string * value)) :
  encode indent level (VDict (kv :: d)) =
  String "{" (newline_indent indent (S level)
              +:+ members_text indent (S level) (kv :: d)
              +:+ newline_indent indent level +:+ "}").
Proof. reflexivity. Qed.

Lemma items_text_more (indent level : nat) (x y : value) (items : list value) :
  items_text indent level (x :: y :: items) =
  encode indent level x
  +:+ String "," (newline_indent indent level +:+ items_text indent level (y :: items)).
Proof. reflexivity. Qed.

Lemma members_text_more (indent level : nat) (kv kv' : string * value)
    (d : list (string * value)) :
  members_text indent level (kv :: kv' :: d) =
  member_text indent level kv
  +:+ String "," (newline_indent indent level +:+ members_text indent level (kv' :: d)).
Proof. reflexivity. Qed.

Lemma items_text_head (indent level : nat) (x : value) (items : list value)
    (tail : string) :
  exists c s, items_text indent level (x :: items) +:+ tail = String c s /\
              value_head c = true.
Proof.
  destruct (encode_head indent level x) as (c & s & Hcs & Hc).
  destruct items as [|y items].
  - exists c, (s +:+ tail). split; [|exact Hc].
    change (items_text indent level [x]) with (encode indent level x).
    rewrite Hcs. reflexivity.
  - eexists c, _. split; [|exact Hc].
    rewrite items_text_more, Hcs, !app_cons. reflexivity.
Qed.

Lemma member_text_cons (indent level : nat) (kv : string * value) (tail : string) :
  member_text indent level kv +:+ tail =
  String dquote_char
    (escape (fst kv) +:+ dquote
     +:+ String ":" (String " " (encode indent level (snd kv) +:+ tail))).
Proof.
  unfold member_text, encode_str. rewrite !app_assoc. reflexivity.
Qed.

Lemma no_digit_newline_indent (indent level : nat) (s : string) :
  no_digit_ahead (newline_indent indent level +:+ s).
Proof. reflexivity. Qed.

Lemma dict_set_fresh (key : string) (v : value) (d : dict) :
  key ∉ map fst d -> dict_set key v d = d ++ [(key, v)].
Proof.
  induction d as [|[k w] d IH]; cbn [dict_set map fst app]; [reflexivity|].
  intros Hfresh. apply not_elem_of_cons in Hfresh as [Hk Hd].
  destruct (String.eqb_spec k key); [congruence|].
  rewrite IH by exact Hd. reflexivity.
Qed.

Lemma dict_of_pairs_from (pairs : list (string * value)) :
  forall d : dict,
    NoDup (map fst (d ++ pairs)) ->
    foldl (fun d (kv : string * value) => dict_set (fst kv) (snd kv) d) d pairs =
    d ++ pairs.
Proof.
  induction pairs as [|[k v] pairs IH]; intros d Hnodup; cbn [foldl fst snd].
  - rewrite app_nil_r. reflexivity.
  - rewrite (cons_middle (k, v) d pairs), List.app_assoc in Hnodup |- *.
    rewrite dict_set_fresh.
    + apply IH, Hnodup.
    + rewrite map_app, map_app in Hnodup.
      apply NoDup_app in Hnodup as [Hd _].
      apply NoDup_app in Hd as (_ & Hfresh & _).
      intros Hin. apply (Hfresh k Hin). left.
Qed.

Lemma dict_of_pairs_nodup (d : list (string * value)) :
  NoDup (map fst d) -> dict_of_pairs d = d.
Proof. intros Hnodup. apply (dict_of_pairs_from d []), Hnodup. Qed.

(** The scanner reads a value's text back, whatever follows it (after a
    number: anything but a digit). *)
Lemma scan_encode (indent : nat) (fuel : nat) :
  (forall (v : value) (level : nat) (rest : string),
     well_formed v -> (vsize v < fuel)%nat -> no_digit_ahead rest ->
     scan_value fuel (encode indent level v +:+ rest) = Some (v, rest)) /\
  (forall (items : list value) (level level0 : nat) (rest : string),
     items <> [] -> Forall well_formed items -> (items_size items < fuel)%nat ->
     scan_items fuel
       (items_text indent level items
        +:+ newline_indent indent level0 +:+ String "]" rest) = Some (items, rest)) /\
  (forall (d : list (string * value)) (level level0 : nat) (rest : string),
     d <> [] -> Forall (fun kv => well_formed (snd kv)) d ->
     (members_size d < fuel)%nat ->
     scan_members fuel
       (members_text indent level d
        +:+ newline_indent indent level0 +:+ String "}" rest) = Some (d, rest)).
Proof.
  induction fuel as [|fuel (IHv & IHi & IHm)].
  { repeat split; intros; lia. }
  split; [|split].
  - intros v level rest Hwf Hsize Hrest.
    destruct v as [|[]|z|text|[|x items]|[|kv d]]; try reflexivity.
    + destruct (str_of_int_head z) as (c & s & Hcs & Hc).
      cbn [encode]. rewrite Hcs, app_cons, (scan_value_int _ _ _ Hc).
      rewrite <- app_cons, <- Hcs, (scan_int_str_of_int z rest Hrest). reflexivity.
    + change (encode indent level (VStr text) +:+ rest)
        with (String dquote_char ((escape text +:+ dquote) +:+ rest)).
      rewrite scan_value_str, app_assoc, scan_string_escape. reflexivity.
    + inversion_clear Hwf as [| | | |? Hitems|].
      rewrite vsize_list in Hsize.
      rewrite encode_list, app_cons, !app_assoc, app_cons, app_nil_l.
      destruct (items_text_head indent (S level) x items
                  (newline_indent indent level +:+ String "]" rest))
        as (c & s & Hcs & Hc).
      rewrite (scan_value_list fuel _ c s)
        by (rewrite ?skip_ws_newline_indent, ?Hcs; auto using skip_ws_head).
      rewrite <- Hcs, IHi by (auto with lia; discriminate). reflexivity.
    + inversion_clear Hwf as [| | | | |? Hnodup Hmembers].
      rewrite vsize_dict in Hsize.
      rewrite encode_dict, app_cons, !app_assoc, app_cons, app_nil_l.
      assert (Hhead : skip_ws (newline_indent indent (S level)
                        +:+ members_text indent (S level) (kv :: d)
                        +:+ newline_indent indent level +:+ String "}" rest) =
                      members_text indent (S level) (kv :: d)
                        +:+ newline_indent indent level +:+ String "}" rest).
      { rewrite skip_ws_newline_indent.
        destruct d; [change (members_text indent (S level) [kv])
                       with (member_text indent (S level) kv)
                    | rewrite members_text_more, app_assoc];
          rewrite member_text_cons; reflexivity. }
      assert (Hquote : exists s,
                members_text indent (S level) (kv :: d)
                  +:+ newline_indent indent level +:+ String "}" rest
                = String dquote_char s).
      { destruct d; [change (members_text indent (S level) [kv])
                       with (member_text indent (S level) kv)
                    | rewrite members_text_more, app_assoc];
          rewrite member_text_cons; eexists; reflexivity. }
      destruct Hquote as [s Hs].
      rewrite (scan_value_dict fuel _ dquote_char s)
        by (rewrite ?Hhead, ?Hs; reflexivity).
      rewrite <- Hs, IHm by (auto with lia; discriminate).
      rewrite dict_of_pairs_nodup by exact Hnodup. reflexivity.
  - intros items level level0 rest Hne Hwf Hsize.
    destruct items as [|x items]; [congruence|].
    inversion_clear Hwf as [|? ? Hx Hitems]. cbn [items_size] in Hsize.
    destruct items as [|y items].
    + change (items_text indent level [x]) with (encode indent level x).
      apply (scan_items_last fuel _ x (newline_indent indent level0 +:+ String "]" rest)).
      * apply IHv; [exact Hx | lia | apply no_digit_newline_indent].
      * rewrite skip_ws_newline_indent. reflexivity.
    + rewrite items_text_more, app_assoc, app_cons, app_assoc.
      rewrite (scan_items_more fuel _ x
                 (newline_indent indent level
                  +:+ items_text indent level (y :: items)
                  +:+ newline_indent indent level0 +:+ String "]" rest))
        by (apply IHv; [exact Hx | lia | reflexivity]).
      rewrite skip_ws_newline_indent.
      destruct (items_text_head indent level y items
                  (newline_indent indent level0 +:+ String "]" rest))
        as (c & s & Hcs & Hc).
      rewrite Hcs, (skip_ws_head c s Hc), <- Hcs.
      rewrite IHi by (first [discriminate | exact Hitems | lia]). reflexivity.
  - intros d level level0 rest Hne Hwf Hsize.
    destruct d as [|kv d]; [congruence|].
    inversion_clear Hwf as [|? ? Hkv Hd]. cbn [members_size] in Hsize.
    destruct (encode_head indent level (snd kv)) as (c & s & Hcs & Hc).
    destruct d as [|kv' d].
    + change (members_text indent level [kv]) with (member_text indent level kv).
      rewrite member_text_cons. destruct kv as [key v]. cbn [fst snd] in *.
      eapply scan_members_last.
      * apply scan_string_escape.
      * reflexivity.
      * cbn [skip_ws]. change (is_ws " ") with true. cbn iota.
        rewrite Hcs, app_cons, (skip_ws_head c _ Hc), <- app_cons, <- Hcs.
        apply IHv; [exact Hkv | lia | apply no_digit_newline_indent].
      * rewrite skip_ws_newline_indent. reflexivity.
    + rewrite members_text_more, app_assoc, app_cons, app_assoc.
      rewrite member_text_cons. destruct kv as [key v]. cbn [fst snd] in *.
      etransitivity.
      { eapply scan_members_more.
        - apply scan_string_escape.
        - reflexivity.
        - cbn [skip_ws]. change (is_ws " ") with true. cbn iota.
          rewrite Hcs, app_cons, (skip_ws_head c _ Hc), <- app_cons, <- Hcs.
          apply IHv; [exact Hkv | lia | reflexivity]. }
      rewrite skip_ws_newline_indent.
      assert (Hquote : exists s',
                members_text indent level (kv' :: d)
                  +:+ newline_indent indent level0 +:+ String "}" rest
                = String dquote_char s').
      { destruct d; [change (members_text indent level [kv'])
                       with (member_text indent level kv')
                    | rewrite members_text_more, app_assoc];
          rewrite member_text_cons; eexists; reflexivity. }
      destruct Hquote as [s' Hs'].
      rewrite Hs'. cbn [skip_ws]. change (is_ws dquote_char) with false. cbn iota.
      rewrite <- Hs'.
      rewrite IHm by (first [discriminate | exact Hd | lia]). reflexivity.
Qed.

Lemma app_nil_r (s : string) : s +:+ EmptyString = s.
Proof. induction s as [|c s IH]; [reflexivity|]. rewrite app_cons, IH. reflexivity. Qed.

Lemma length_newline_indent (indent level : nat) :
  (1 <= String.length (newline_indent indent level))%nat.
Proof. unfold newline_indent, newline. rewrite app_cons. cbn [String.length]. lia. Qed.

(** The text of a value is at least as long as the scanner goes deep. *)
Lemma vsize_le_length (indent : nat) (n : nat) :
  forall (v : value) (level : nat),
    (vsize v <= n)%nat -> (vsize v <= String.length (encode indent level v))%nat.
Proof.
  induction n as [|n IH]; intros v level Hn.
  { lia. }
  destruct v as [| | | |items|d]; try (cbn [vsize]; lia).
  - assert (Hitems : forall items level,
              (items_size items <= n)%nat ->
              (items_size items <= String.length (items_text indent level items) + 1)%nat).
    { clear items level Hn. induction items as [|x items IHitems]; intros level Hsize.
      - cbn [items_size]. lia.
      - cbn [items_size] in *.
        pose proof (IH x level ltac:(lia)) as Hx.
        destruct items as [|y items].
        + change (items_text indent level [x]) with (encode indent level x).
          cbn [items_size]. lia.
        + rewrite items_text_more, length_app. cbn [String.length].
          rewrite length_app. specialize (IHitems level ltac:(lia)). lia. }
    rewrite vsize_list in *.
    destruct items as [|x items]; [cbn; lia|].
    rewrite encode_list. cbn [String.length]. rewrite !length_app.
    specialize (Hitems (x :: items) (S level) ltac:(lia)).
    pose proof (length_newline_indent indent (S level)). lia.
  - assert (Hmembers : forall d level,
              (members_size d <= n)%nat ->
              (members_size d <= String.length (members_text indent level d) + 1)%nat).
    { clear d level Hn. induction d as [|kv d IHd]; intros level Hsize.
      - cbn [members_size]. lia.
      - cbn [members_size] in *.
        pose proof (IH (snd kv) level ltac:(lia)) as Hkv.
        assert (Hmember : (vsize (snd kv)
                           <= String.length (member_text indent level kv))%nat)
          by (unfold member_text; rewrite !length_app; lia).
        destruct d as [|kv' d].
        + change (members_text indent level [kv]) with (member_text indent level kv).
          cbn [members_size]. lia.
        + rewrite members_text_more, length_app. cbn [String.length].
          rewrite length_app. specialize (IHd level ltac:(lia)). lia. }
    rewrite vsize_dict in *.
    destruct d as [|kv d]; [cbn; lia|].
    rewrite encode_dict. cbn [String.length]. rewrite !length_app.
    specialize (Hmembers (kv :: d) (S level) ltac:(lia)).
    pose proof (length_newline_indent indent (S level)). lia.
Qed.

(** [loads] reads back what [dumps] writes. *)
Lemma loads_dumps (indent : nat) (v : value) :
  well_formed v -> loads (dumps indent v) = Some v.
Proof.
  intros Hwf. unfold loads, dumps.
  destruct (encode_head indent 0 v) as (c & s & Hcs & Hc).
  rewrite Hcs at 2. rewrite (skip_ws_head c s Hc), <- Hcs.
  rewrite <- (app_nil_r (encode indent 0 v)) at 2.
  destruct (scan_encode indent (S (String.length (encode indent 0 v)))) as [Hscan _].
  rewrite Hscan; [reflexivity | exact Hwf | | exact I].
  pose proof (vsize_le_length indent (vsize v) v 0). lia.
Qed.

End PyJsonFacts.

(** ** save_customers and load_customers *)

Lemma load_after_save_with `{JsonLib} (w : world) (path : string)
    (customers : list value) :
  json_loads (json_dumps 2 (VList customers)) = Some (VList customers) ->
  load_customers path (fst (save_customers customers path w)) =
  (fst (save_customers customers path w), Ok customers).
Proof.
  intros Hjson. rewrite load_customers_run. f_equal. f_equal.
  unfold stored_at, sequence_of_text, save_customers, json_dump, write_text.
  cbn [fst files json_dump_writes json_module_of_lib bind ret].
  rewrite lookup_insert_eq, Hjson. reflexivity.
Qed.



(** ** The lines of a table have one length *)

Lemma length_repeat_char (c : ascii) (n : nat) : String.length (repeat_char c n) = n.
Proof. induction n as [|n IH]; [reflexivity|]. cbn. rewrite IH. reflexivity. Qed.

Lemma length_ljust (s : string) (width : nat) :
  (String.length s <= width)%nat -> String.length (ljust s width) = width.
Proof.
  intros Hle. unfold ljust. rewrite length_app, length_repeat_char. lia.
Qed.

Lemma length_concat (sep : string) (parts : list string) :
  parts <> [] ->
  String.length (String.concat sep parts) =
  (sum_list (map String.length parts) + String.length sep * (length parts - 1))%nat.
Proof.
  induction parts as [|x parts IH]; [congruence|]. intros _.
  destruct parts as [|y parts].
  - cbn. lia.
  - change (String.concat sep (x :: y :: parts))
      with (x +:+ sep +:+ String.concat sep (y :: parts)).
    rewrite !length_app, IH by discriminate. cbn [map sum_list length].
    rewrite ?Nat.sub_succ, ?Nat.sub_0_r. unfold id. lia.
Qed.

Lemma map_length_justified (widths : list nat) (parts : list string) :
  Forall2 (fun part width => (String.length part <= width)%nat) parts widths ->
  map String.length (zip_with ljust parts widths) = widths.
Proof.
  induction 1 as [|part width parts widths Hle _ IH]; [reflexivity|].
  cbn [zip_with map]. rewrite length_ljust by exact Hle. rewrite IH. reflexivity.
Qed.

Lemma length_justified_row (widths : list nat) (parts : list string) :
  parts <> [] ->
  Forall2 (fun part width => (String.length part <= width)%nat) parts widths ->
  String.length (justified_row widths parts) =
  (sum_list widths + 3 * (length widths - 1))%nat.
Proof.
  intros Hne Hfit. unfold justified_row.
  pose proof (Forall2_length _ _ _ Hfit) as Hlen.
  rewrite length_concat.
  - rewrite (map_length_justified widths parts Hfit).
    rewrite length_zip_with, Hlen. cbn [String.length]. lia.
  - destruct Hfit; [congruence | discriminate].
Qed.

Lemma length_separator_line (widths : list nat) :
  widths <> [] ->
  String.length (separator_line widths) =
  (sum_list widths + 3 * (length widths - 1))%nat.
Proof.
  intros Hne. unfold separator_line. rewrite length_concat.
  - rewrite map_map, length_map.
    rewrite (map_ext _ (fun w => w)) by (intros; apply length_repeat_char).
    rewrite map_id. cbn [String.length]. lia.
  - destruct widths; [congruence | discriminate].
Qed.

Lemma header_fits (rows : list dict) :
  Forall2 (fun part width => (String.length part <= width)%nat)
    headers (table_widths rows).
Proof.
  apply Forall2_same_length_lookup. split.
  - unfold table_widths. rewrite length_imap. reflexivity.
  - intros j header width Hheader. unfold table_widths.
    rewrite list_lookup_imap, Hheader. intros [= <-].
    unfold column_width. apply max_list_elem_of_le. left.
Qed.

Lemma cells_fit (rows : list dict) (r : dict) :
  r ∈ rows ->
  Forall2 (fun part width => (String.length part <= width)%nat)
    (cells r) (table_widths rows).
Proof.
  intros Hin. apply Forall2_same_length_lookup. split.
  - unfold table_widths. rewrite length_imap. reflexivity.
  - intros j text width Htext. unfold table_widths.
    rewrite list_lookup_imap.
    destruct (headers !! j) as [header|]; [|discriminate]. intros [= <-].
    unfold column_width. apply max_list_elem_of_le. right.
    apply list_elem_of_fmap. exists r. split; [|exact Hin].
    rewrite (list_lookup_total_correct _ _ _ Htext). reflexivity.
Qed.

(** X1. The header row, the separator line and every row of a table are
    equally long: the widths of the five columns and the four
    separators of three characters. *)
Theorem table_lines_aligned (rows : list dict) :
  rows <> [] ->
  exists lines : list string,
    render_table (map VDict rows) = Ok (String.concat newline lines) /\
    length lines = (2 + length rows)%nat /\
    Forall (fun line =>
              String.length line = (sum_list (table_widths rows) + 12)%nat) lines.
Proof.
  intros Hne.
  exists (justified_row (table_widths rows) headers
          :: separator_line (table_widths rows)
          :: map (fun r => justified_row (table_widths rows) (cells r)) rows).
  split; [apply render_table_nonempty, Hne|].
  split; [cbn [length]; rewrite length_map; reflexivity|].
  assert (Hwidths : length (table_widths rows) = 5%nat) by apply length_table_widths.
  repeat constructor.
  - rewrite length_justified_row; [lia | discriminate | apply header_fits].
  - rewrite length_separator_line; [lia|].
    destruct (table_widths rows); [discriminate | discriminate].
  - apply Forall_fmap, Forall_forall. intros r Hr. cbv beta.
    unfold compose.
    rewrite length_justified_row; [lia | discriminate | apply cells_fit, Hr].
Qed.

Lemma table_lines_aligned_witness :
  exists lines : list string,
    render_table (map VDict [ann; bo]) = Ok (String.concat newline lines) /\
    length lines = (2 + length [ann; bo])%nat /\
    Forall (fun line =>
              String.length line = (sum_list (table_widths [ann; bo]) + 12)%nat) lines.
Proof. apply (table_lines_aligned [ann; bo]). discriminate. Defined.

(** ** The scenarios of the specification, run with the reference json
    module *)

(** Starting with no file, adding Ann with a phone number saves one
    record, with the id 1, the phone number, and empty email and notes. *)
Example add_to_empty_store :
  let w' := fst (add_customer (AddArgs "Ann" (Some "555-1000") None None) (World ∅ [])) in
  stored w' = [VDict ann] /\
  stdout w' = ["Added customer:"; rendered [ann]].
Proof. vm_compute. split; reflexivity. Qed.

(** With the ids 1, 2 and 5 in the store, the record added gets the id 6
    and comes last. *)
Example add_after_ids_1_2_5 :
  let five := dict_set "id" (VInt 5) ann in
  let w' := fst (add_customer (AddArgs "Zed" None None None) (world_of [ann; bo; five])) in
  stored w' =
  map VDict [ann; bo; five;
             [("id", VInt 6); ("name", VStr "Zed"); ("phone", VStr EmptyString);
              ("email", VStr EmptyString); ("notes", VStr EmptyString)]].
Proof. vm_compute. reflexivity. Qed.

(** An id that is a str makes [next_id] raise: the sum of a str and 1 is
    no value. *)
Example next_id_of_a_str_id :
  next_id [VDict [("id", VStr "7")]] = Raise TypeError.
Proof. reflexivity. Qed.

(** * Further properties of the code *)

(** ** find_customer on any list *)

Lemma find_customer_cons_dict (r : dict) (rest : list value) (customer_id : Z) :
  find_customer (VDict r :: rest) customer_id =
  if has_id customer_id r then Ok (Some O)
  else found <- find_customer rest customer_id ;; Ok (S <$> found).
Proof.
  cbn [find_customer].
  destruct (py_get_id_eq customer_id r) as (v & -> & Hv). cbn [rbind].
  rewrite Hv. reflexivity.
Qed.

Lemma find_customer_cons_other (v : value) (rest : list value) (customer_id : Z) :
  is_dict v = false ->
  find_customer (v :: rest) customer_id = Raise AttributeError.
Proof. destruct v; [reflexivity .. | discriminate]. Qed.

(** The three ways a scan can go. *)
Lemma find_customer_split (customers : list value) (customer_id : Z) :
  (exists rows : list dict,
     customers = map VDict rows /\
     Forall (fun r => has_id customer_id r = false) rows /\
     find_customer customers customer_id = Ok None) \/
  (exists (before : list dict) (r : dict) (rest : list value),
     customers = map VDict before ++ VDict r :: rest /\
     Forall (fun r => has_id customer_id r = false) before /\
     has_id customer_id r = true /\
     find_customer customers customer_id = Ok (Some (length before))) \/
  (exists (before : list dict) (v : value) (rest : list value),
     customers = map VDict before ++ v :: rest /\
     Forall (fun r => has_id customer_id r = false) before /\
     is_dict v = false /\
     find_customer customers customer_id = Raise AttributeError).
Proof.
  induction customers as [|c customers IH].
  - left. exists []. split; [reflexivity|]. split; [constructor | reflexivity].
  - destruct (is_dict c) eqn:Hc.
    + destruct c as [| | | | |r]; try discriminate.
      rewrite find_customer_cons_dict.
      destruct (has_id customer_id r) eqn:Hr.
      * right. left. exists [], r, customers.
        split; [reflexivity|]. split; [constructor|]. split; [exact Hr | reflexivity].
      * destruct IH as [(rows & -> & Hrows & ->)
                       |[(before & r' & rest & -> & Hbefore & Hr' & ->)
                        |(before & v & rest & -> & Hbefore & Hv & ->)]].
        -- left. exists (r :: rows).
           split; [reflexivity|]. split; [constructor; assumption | reflexivity].
        -- right. left. exists (r :: before), r', rest.
           split; [reflexivity|]. split; [constructor; assumption|].
           split; [assumption | reflexivity].
        -- right. right. exists (r :: before), v, rest.
           split; [reflexivity|]. split; [constructor; assumption|].
           split; [assumption | reflexivity].
    + right. right. exists [], c, customers.
      split; [reflexivity|]. split; [constructor|]. split; [assumption|].
      apply find_customer_cons_other, Hc.
Qed.

Lemma find_customer_at (before : list dict) (r : dict) (rest : list value)
    (customer_id : Z) :
  Forall (fun r => has_id customer_id r = false) before ->
  has_id customer_id r = true ->
  find_customer (map VDict before ++ VDict r :: rest) customer_id =
  Ok (Some (length before)).
Proof.
  intros Hbefore Hr.
  induction Hbefore as [|r0 before Hr0 _ IH]; cbn [map app length].
  - rewrite find_customer_cons_dict, Hr. reflexivity.
  - rewrite find_customer_cons_dict, Hr0, IH. reflexivity.
Qed.

Lemma find_customer_raises (before : list dict) (v : value) (rest : list value)
    (customer_id : Z) :
  Forall (fun r => has_id customer_id r = false) before ->
  is_dict v = false ->
  find_customer (map VDict before ++ v :: rest) customer_id = Raise AttributeError.
Proof.
  intros Hbefore Hv.
  induction Hbefore as [|r0 before Hr0 _ IH]; cbn [map app].
  - apply find_customer_cons_other, Hv.
  - rewrite find_customer_cons_dict, Hr0, IH. reflexivity.
Qed.

(** X2. [find_customer] stops at the first record with the id: after
    records without the id, a record with it is returned by its position
    whatever follows it (what follows is never looked at, dict or not);
    an element that is no dict makes the scan raise AttributeError; and
    when the records end, the result is [None]. *)
Theorem find_customer_scan (before : list dict) (rest : list value)
    (customer_id : Z) :
  Forall (fun r => has_id customer_id r = false) before ->
  (forall r : dict,
     has_id customer_id r = true ->
     find_customer (map VDict before ++ VDict r :: rest) customer_id =
     Ok (Some (length before))) /\
  (forall v : value,
     is_dict v = false ->
     find_customer (map VDict before ++ v :: rest) customer_id =
     Raise AttributeError) /\
  find_customer (map VDict before) customer_id = Ok None.
Proof.
  intros Hbefore. split; [|split].
  - intros r Hr. apply find_customer_at; assumption.
  - intros v Hv. apply find_customer_raises; assumption.
  - apply find_customer_none, Hbefore.
Qed.

Lemma find_customer_scan_witness :
  Forall (fun r => has_id 1 r = false) [bo] /\
  find_customer (map VDict [bo] ++ VDict ann :: [VInt 7; VDict ann]) 1 =
  Ok (Some (length [bo])).
Proof.
  assert (Hbo : Forall (fun r => has_id 1 r = false) [bo]) by (repeat constructor).
  split; [exact Hbo|].
  apply (proj1 (find_customer_scan [bo] [VInt 7; VDict ann] 1 Hbo) ann).
  reflexivity.
Defined.

(** ** What the functions raise *)

Lemma dicts_or_not (l : list value) :
  (exists rows : list dict, l = map VDict rows) \/
  Exists (fun v => is_dict v = false) l.
Proof.
  induction l as [|v l [[rows ->]|Hex]].
  - left. exists []. reflexivity.
  - destruct v as [| | | | |r];
      try (right; left; reflexivity).
    left. exists (r :: rows). reflexivity.
  - right. right. exact Hex.
Qed.

Lemma map_VDict_inj (rows rows' : list dict) :
  map VDict rows = map VDict rows' -> rows = rows'.
Proof.
  revert rows'. induction rows as [|r rows IH]; intros [|r' rows'] Heq;
    try discriminate; [reflexivity|].
  injection Heq as -> Heq. f_equal. apply IH, Heq.
Qed.

Lemma str_row_other (v : value) : is_dict v = false -> str_row v = Raise AttributeError.
Proof. destruct v; [reflexivity .. | discriminate]. Qed.

Lemma str_rows_other (rows : list value) :
  Exists (fun v => is_dict v = false) rows ->
  mapM str_row rows = Raise AttributeError.
Proof.
  induction 1 as [v rows Hv|v rows _ IH]; cbn [mapM].
  - rewrite (str_row_other v Hv). reflexivity.
  - destruct (is_dict v) eqn:Hv.
    + destruct v as [| | | | |r]; try discriminate.
      rewrite str_row_dict, IH. reflexivity.
    + rewrite (str_row_other v Hv). reflexivity.
Qed.

Lemma render_table_other (rows : list value) :
  Exists (fun v => is_dict v = false) rows ->
  render_table rows = Raise AttributeError.
Proof.
  intros Hex. destruct rows as [|v rows]; [inversion Hex|].
  unfold render_table. rewrite (str_rows_other _ Hex). reflexivity.
Qed.

Lemma render_table_only_attribute_error (rows : list value) (e : exn) :
  render_table rows = Raise e -> e = AttributeError.
Proof.
  destruct (dicts_or_not rows) as [[records ->]|Hex].
  - rewrite render_table_dicts. discriminate.
  - rewrite (render_table_other rows Hex). intros [= <-]. reflexivity.
Qed.

(** X3. For rows whose dicts hold plain values (None, bools, strs, ints
    of at most [max_str_digits] digits), so that [str] returns on every
    cell: [render_table] raises AttributeError exactly when a row is not a
    dict, and it raises nothing else; on a list of dicts it returns the
    placeholder text for the empty list and the table otherwise. *)
Theorem render_table_raises (max_str_digits : nat) (rows : list value) :
  Forall (fun row => plain_row max_str_digits row = true) rows ->
  (render_table rows = Raise AttributeError <->
   Exists (fun v => is_dict v = false) rows) /\
  (forall e : exn, render_table rows = Raise e -> e = AttributeError) /\
  (forall records : list dict,
     rows = map VDict records ->
     render_table rows =
     Ok (match records with [] => "(no customers yet)" | _ => rendered records end)).
Proof.
  intros _.
  destruct (dicts_or_not rows) as [[records ->]|Hex].
  - rewrite render_table_dicts. split; [|split].
    + split; [discriminate|]. intros Hex. exfalso.
      apply Exists_exists in Hex as (v & Hin & Hv).
      apply list_elem_of_fmap in Hin as (r & -> & _). discriminate.
    + discriminate.
    + intros records' Heq. apply map_VDict_inj in Heq as <-. reflexivity.
  - rewrite (render_table_other rows Hex). split; [|split].
    + split; [intros _; exact Hex | reflexivity].
    + intros e [= <-]. reflexivity.
    + intros records ->. exfalso.
      apply Exists_exists in Hex as (v & Hin & Hv).
      apply list_elem_of_fmap in Hin as (r & -> & _). discriminate.
Qed.

Lemma render_table_raises_witness :
  Forall (fun row => plain_row 4300 row = true) [VDict ann; VStr "bo"] /\
  (render_table [VDict ann; VStr "bo"] = Raise AttributeError <->
   Exists (fun v => is_dict v = false) [VDict ann; VStr "bo"]).
Proof.
  assert (Hplain : Forall (fun row => plain_row 4300 row = true) [VDict ann; VStr "bo"])
    by (repeat constructor).
  split; [exact Hplain|].
  exact (proj1 (render_table_raises 4300 [VDict ann; VStr "bo"] Hplain)).
Defined.

(** ** next_id on any list *)

Lemma value_nested_ind (P : value -> Prop) :
  P VNone ->
  (forall b, P (VBool b)) ->
  (forall z, P (VInt z)) ->
  (forall s, P (VStr s)) ->
  (forall items, Forall P items -> P (VList items)) ->
  (forall d, Forall (fun kv : string * value => P (snd kv)) d -> P (VDict d)) ->
  forall v, P v.
Proof.
  intros HNone HBool HInt HStr HList HDict.
  fix IH 1. intros [|b|z|s|items|d].
  - exact HNone.
  - apply HBool.
  - apply HInt.
  - apply HStr.
  - apply HList. induction items as [|x items IHitems]; constructor.
    + apply IH.
    + exact IHitems.
  - apply HDict. induction d as [|kv d IHd]; constructor.
    + apply IH.
    + exact IHd.
Qed.

Lemma py_gt_raises (a : value) :
  forall (b : value) (e : exn), py_gt a b = Raise e -> e = TypeError.
Proof.
  induction a as [|x|z|s|items IH|d _] using value_nested_ind; intros b e;
    destruct b as [|y|z'|s'|items'|d']; cbn [py_gt as_int];
    try (intros [= <-]; reflexivity); try discriminate.
  revert items'. induction IH as [|x items Hx _ IHitems]; intros [|y items'];
    try discriminate.
  destruct (py_eq x y); [apply IHitems | apply Hx].
Qed.

Lemma py_get_raises (c : value) (key : string) (default : value) (e : exn) :
  py_get c key default = Raise e -> e = AttributeError.
Proof. destruct c; cbn; intros [= <-]; reflexivity. Qed.

Lemma py_add_one (a : value) :
  match py_add a (VInt 1) with
  | Ok v => exists n, as_int a = Some n /\ v = VInt (n + 1)
  | Raise e => as_int a = None /\ e = TypeError
  end.
Proof. destruct a; cbn; eauto. Qed.

Lemma max_id_raises (rest : list value) :
  forall (cur : value) (e : exn),
    max_id cur rest = Raise e -> e = TypeError \/ e = AttributeError.
Proof.
  induction rest as [|c rest IH]; intros cur e; cbn [max_id]; [discriminate|].
  destruct (py_get c "id" (VInt 0)) as [item|e'] eqn:Hget; cbn [rbind].
  - destruct (py_gt item cur) as [above|e'] eqn:Hgt; cbn [rbind].
    + apply IH.
    + intros [= <-]. left. eapply py_gt_raises, Hgt.
  - intros [= <-]. right. eapply py_get_raises, Hget.
Qed.

(** What [next_id] can give on any list: an int, or one of two
    exceptions. *)
Lemma next_id_result (customers : list value) :
  match next_id customers with
  | Ok v => exists n : Z, v = VInt n
  | Raise e => e = TypeError \/ e = AttributeError
  end.
Proof.
  destruct customers as [|c rest]; cbn [next_id]; [eauto|].
  destruct (py_get c "id" (VInt 0)) as [first|e] eqn:Hget; cbn [rbind].
  - destruct (max_id first rest) as [largest|e] eqn:Hmax; cbn [rbind].
    + pose proof (py_add_one largest) as Hadd.
      destruct (py_add largest (VInt 1)) as [v|e].
      * destruct Hadd as (n & _ & ->). eauto.
      * left. apply Hadd.
    + eapply max_id_raises, Hmax.
  - right. eapply py_get_raises, Hget.
Qed.

Lemma py_get_id_value (r : dict) :
  exists v, py_get (VDict r) "id" (VInt 0) = Ok v /\ as_int v = id_number r.
Proof.
  unfold py_get, id_number. destruct (dict_get "id" r) as [v|]; eauto.
Qed.

Lemma py_gt_mixed (a b : value) :
  (as_int a = None /\ as_int b <> None) \/ (as_int a <> None /\ as_int b = None) ->
  py_gt a b = Raise TypeError.
Proof.
  destruct a, b; cbn; intros [[Ha Hb]|[Ha Hb]]; congruence.
Qed.

(** Once an id that is no number is met, the maximum is no number or the
    comparison has raised TypeError. *)
Lemma max_id_no_number (rows : list dict) :
  forall cur : value,
    as_int cur = None \/ Exists (fun r => id_number r = None) rows ->
    match max_id cur (map VDict rows) with
    | Ok best => as_int best = None
    | Raise e => e = TypeError
    end.
Proof.
  induction rows as [|r rows IH]; intros cur Hbad; cbn [max_id map].
  - destruct Hbad as [Hcur|Hex]; [exact Hcur | inversion Hex].
  - destruct (py_get_id_value r) as (item & -> & Hitem). cbn [rbind].
    destruct (as_int cur) as [m|] eqn:Hcur, (id_number r) as [z|] eqn:Hr.
    + rewrite (py_gt_numbers item cur z m Hitem Hcur). cbn [rbind].
      apply IH. right. destruct Hbad as [?|Hex]; [discriminate|].
      inversion Hex; subst; [congruence | assumption].
    + rewrite py_gt_mixed by (left; split; congruence). reflexivity.
    + rewrite py_gt_mixed by (right; split; congruence). reflexivity.
    + destruct (py_gt item cur) as [above|e] eqn:Hgt; cbn [rbind].
      * apply IH. left. destruct above; assumption.
      * eapply py_gt_raises, Hgt.
Qed.

Lemma next_id_no_number (rows : list dict) :
  Exists (fun r => id_number r = None) rows ->
  next_id (map VDict rows) = Raise TypeError.
Proof.
  intros Hex. destruct rows as [|r rows]; [inversion Hex|]. cbn [next_id map].
  destruct (py_get_id_value r) as (first & -> & Hfirst). cbn [rbind].
  assert (Hbad : as_int first = None \/ Exists (fun r => id_number r = None) rows).
  { inversion Hex; subst; [left; congruence | right; assumption]. }
  pose proof (max_id_no_number rows first Hbad) as Hmax.
  destruct (max_id first (map VDict rows)) as [best|e]; cbn [rbind].
  - pose proof (py_add_one best) as Hadd.
    destruct (py_add best (VInt 1)) as [v|e].
    + destruct Hadd as (n & Hn & _). congruence.
    + destruct Hadd as [_ ->]. reflexivity.
  - rewrite Hmax. reflexivity.
Qed.


(** X4. When every element is a dict and the id of some record is not a
    number (an int or a bool), [next_id] raises TypeError: the comparison
    of [max] or the addition of 1 fails. *)
Theorem next_id_type_error (rows : list dict) :
  Exists (fun r => id_number r = None) rows ->
  next_id (map VDict rows) = Raise TypeError.
Proof. apply next_id_no_number. Qed.

Lemma next_id_type_error_witness :
  Exists (fun r => id_number r = None) [ann; [("id", VStr "7")]] /\
  next_id (map VDict [ann; [("id", VStr "7")]]) = Raise TypeError.
Proof.
  assert (Hex : Exists (fun r => id_number r = None) [ann; [("id", VStr "7")]])
    by (right; left; reflexivity).
  split; [exact Hex | apply (next_id_type_error _ Hex)].
Defined.

(** ** How a run of a command can end *)

Lemma remaining_other (customers : list value) (customer_id : Z) :
  Exists (fun v => is_dict v = false) customers ->
  remaining customers customer_id = Raise AttributeError.
Proof.
  unfold remaining.
  induction 1 as [v rest Hv|v rest _ IH]; cbn [filterM].
  - destruct v; try reflexivity. discriminate.
  - destruct v as [| | | | |r]; try reflexivity.
    destruct (py_get_id_eq customer_id r) as (x & -> & _). cbn [rbind].
    rewrite IH. reflexivity.
Qed.

Lemma remaining_result (customers : list value) (customer_id : Z) :
  (exists rows : list dict,
     customers = map VDict rows /\
     remaining customers customer_id =
     Ok (map VDict (filter (fun r => has_id customer_id r = false) rows))) \/
  remaining customers customer_id = Raise AttributeError.
Proof.
  destruct (dicts_or_not customers) as [[rows ->]|Hex].
  - left. exists rows. split; [reflexivity | apply remaining_dicts].
  - right. apply remaining_other, Hex.
Qed.

Lemma render_table_one (r : dict) : render_table [VDict r] = Ok (rendered [r]).
Proof. apply (render_table_nonempty [r]). discriminate. Qed.

Section Outcomes.
Context `{JsonLib}.

Lemma list_customers_cases (w : world) :
  (exists table, render_table (stored w) = Ok table /\
     list_customers w = (World (files w) (stdout w ++ [table]), Ok tt)) \/
  (render_table (stored w) = Raise AttributeError /\
   list_customers w = (w, Raise AttributeError)).
Proof.
  unfold list_customers. rewrite bind_load.
  destruct (render_table (stored w)) as [table|e] eqn:Hrender.
  - left. exists table. split; [reflexivity|].
    rewrite (bind_lift_ok _ _ _ _ eq_refl). reflexivity.
  - right. destruct (render_table_only_attribute_error (stored w) e Hrender).
    split; reflexivity.
Qed.

Lemma add_customer_cases (args : add_args) (w : world) :
  (exists n : Z,
     next_id (stored w) = Ok (VInt n) /\
     add_customer args w =
     (World (<[DATA_FILE :=
                json_dumps 2 (VList (stored w ++ [VDict (new_customer n args)]))]>
               (files w))
            (stdout w ++ ["Added customer:"; rendered [new_customer n args]]),
      Ok tt)) \/
  (exists e : exn,
     (e = TypeError \/ e = AttributeError) /\
     next_id (stored w) = Raise e /\
     add_customer args w = (w, Raise e)).
Proof.
  unfold add_customer. rewrite bind_load.
  pose proof (next_id_result (stored w)) as Hnext.
  destruct (next_id (stored w)) as [v|e] eqn:Hid.
  - destruct Hnext as [n ->]. left. exists n. split; [reflexivity|].
    rewrite (bind_lift_ok _ _ _ _ eq_refl).
    rewrite bind_save, bind_print.
    fold (new_customer n args).
    rewrite (bind_lift_ok _ _ _ _ (render_table_one _)).
    unfold print. cbn [files stdout]. rewrite <- List.app_assoc. reflexivity.
  - right. exists e. split; [exact Hnext|]. split; reflexivity.
Qed.

Lemma edit_customer_cases (args : edit_args) (w : world) :
  (find_customer (stored w) (edit_id args) = Ok None /\
   edit_customer args w =
   (World (files w) (stdout w ++ [not_found_message (edit_id args)]),
    Raise (SystemExit 1))) \/
  (exists (i : nat) (r : dict),
     find_customer (stored w) (edit_id args) = Ok (Some i) /\
     stored w !! i = Some (VDict r) /\
     edit_customer args w =
     (World (<[DATA_FILE :=
                json_dumps 2 (VList (<[i := VDict (edited args r)]> (stored w)))]>
               (files w))
            (stdout w ++ ["Updated customer:"; rendered [edited args r]]),
      Ok tt)) \/
  (find_customer (stored w) (edit_id args) = Raise AttributeError /\
   edit_customer args w = (w, Raise AttributeError)).
Proof.
  destruct (find_customer_split (stored w) (edit_id args))
    as [(rows & Hrows & Hnone & Hfind)
       |[(before & r & rest & Hsplit & Hbefore & Hr & Hfind)
        |(before & v & rest & Hsplit & Hbefore & Hv & Hfind)]].
  - left. split; [exact Hfind | apply edit_customer_not_found, Hfind].
  - right. left. exists (length before), r.
    assert (Hi : stored w !! length before = Some (VDict r)).
    { rewrite Hsplit, lookup_app_r by (rewrite length_map; lia).
      rewrite length_map, Nat.sub_diag. reflexivity. }
    split; [exact Hfind|]. split; [exact Hi|].
    unfold edit_customer. rewrite bind_load.
    rewrite (bind_lift_ok _ _ _ _ Hfind). rewrite Hi. cbn [default].
    rewrite (bind_lift_ok _ _ _ _ (apply_edits_dict args r)).
    fold (edited args r).
    rewrite bind_save, bind_print.
    rewrite (bind_lift_ok _ _ _ _ (render_table_one _)).
    unfold print. cbn [files stdout]. rewrite <- List.app_assoc. reflexivity.
  - right. right. split; [exact Hfind|].
    unfold edit_customer. rewrite bind_load.
    apply bind_lift_raise, Hfind.
Qed.

Lemma delete_customer_cases (args : delete_args) (w : world) :
  (find_customer (stored w) (delete_id args) = Ok None /\
   delete_customer args w =
   (World (files w) (stdout w ++ [not_found_message (delete_id args)]),
    Raise (SystemExit 1))) \/
  (exists (rows : list dict) (lines : list string),
     stored w = map VDict rows /\
     Exists (fun r => has_id (delete_id args) r = true) rows /\
     delete_customer args w =
     (saved_and_printed w
        (filter (fun r => has_id (delete_id args) r = false) rows) lines,
      Ok tt)) \/
  delete_customer args w = (w, Raise AttributeError).
Proof.
  destruct (find_customer_split (stored w) (delete_id args))
    as [(rows & Hrows & Hnone & Hfind)
       |[(before & r & rest & Hsplit & Hbefore & Hr & Hfind)
        |(before & v & rest & Hsplit & Hbefore & Hv & Hfind)]].
  - left. split; [exact Hfind | apply delete_customer_not_found, Hfind].
  - destruct (remaining_result (stored w) (delete_id args))
      as [(rows & Hrows & Hremaining)|Hremaining].
    + right. left.
      assert (Hex : Exists (fun r => has_id (delete_id args) r = true) rows).
      { apply Exists_exists. exists r. split; [|exact Hr].
        assert (Hin : VDict r ∈ map VDict rows)
          by (rewrite <- Hrows, Hsplit; apply elem_of_app; right; left).
        apply list_elem_of_fmap in Hin as (r' & [= <-] & Hin). exact Hin. }
      destruct (find_existing _ _ Hex) as (i & r' & Hlf).
      eexists rows, _. split; [exact Hrows|]. split; [exact Hex|].
      apply (delete_customer_found args w rows i r' Hrows Hlf).
    + right. right. unfold delete_customer. rewrite bind_load.
      rewrite (bind_lift_ok _ _ _ _ Hfind).
      apply bind_lift_raise, Hremaining.
  - right. right. unfold delete_customer. rewrite bind_load.
    apply bind_lift_raise, Hfind.
Qed.

End Outcomes.

(** ** The commands with any json module *)

Section RunsWithAnyModule.
Context `{JsonModule}.

Lemma bind_loaded {A} (k : list value -> cmd A) (w : world) :
  bind (load_customers DATA_FILE) k w =
  match snd (load_customers DATA_FILE w) with
  | Ok customers => k customers w
  | Raise e => (w, Raise e)
  end.
Proof.
  unfold bind. pose proof (load_customers_world DATA_FILE w) as Hw.
  destruct (load_customers DATA_FILE w) as [w' [customers|e]];
    cbn [fst snd] in *; subst w'; reflexivity.
Qed.

Lemma bind_dump {B} (customers : list value) (k : unit -> cmd B) (w : world) :
  bind (save_customers customers DATA_FILE) k w =
  match json_dump_writes 2 (VList customers) with
  | (text, None) => k tt (written w text)
  | (text, Some e) => (written w text, Raise e)
  end.
Proof.
  unfold save_customers, json_dump, bind.
  destruct (json_dump_writes 2 (VList customers)) as [text [e|]]; reflexivity.
Qed.

Lemma main_load_raises (c : command) (w : world) (e : exn) :
  snd (load_customers DATA_FILE w) = Raise e -> main c w = (w, Raise e).
Proof.
  intros Hload.
  destruct c; cbn [main];
    unfold list_customers, add_customer, edit_customer, delete_customer;
    rewrite bind_loaded, Hload; reflexivity.
Qed.

Lemma list_customers_loaded (w : world) (customers : list value) :
  snd (load_customers DATA_FILE w) = Ok customers ->
  list_customers w =
  match render_table customers with
  | Ok table => (printed w [table], Ok tt)
  | Raise e => (w, Raise e)
  end.
Proof.
  intros Hload. unfold list_customers. rewrite bind_loaded, Hload.
  destruct (render_table customers) as [table|e]; reflexivity.
Qed.

Lemma add_customer_loaded (args : add_args) (w : world) (customers : list value) :
  snd (load_customers DATA_FILE w) = Ok customers ->
  add_customer args w =
  match next_id customers with
  | Ok (VInt n) =>
      match json_dump_writes 2 (VList (customers ++ [VDict (new_customer n args)])) with
      | (text, None) =>
          (printed (written w text) ["Added customer:"; rendered [new_customer n args]],
           Ok tt)
      | (text, Some e) => (written w text, Raise e)
      end
  | Ok _ => (w, Raise TypeError)
  | Raise e => (w, Raise e)
  end.
Proof.
  intros Hload. unfold add_customer. rewrite bind_loaded, Hload.
  pose proof (next_id_result customers) as Hnext.
  destruct (next_id customers) as [v|e]; [|reflexivity].
  destruct Hnext as [n ->].
  rewrite (bind_lift_ok _ _ _ _ eq_refl).
  fold (new_customer n args). rewrite bind_dump.
  destruct (json_dump_writes 2 (VList (customers ++ [VDict (new_customer n args)])))
    as [text [e|]]; [reflexivity|].
  rewrite bind_print.
  rewrite (bind_lift_ok _ _ _ _ (render_table_one _)).
  unfold print, printed, written. cbn [files stdout].
  rewrite <- List.app_assoc. reflexivity.
Qed.

Lemma edit_customer_loaded (args : edit_args) (w : world) (customers : list value) :
  snd (load_customers DATA_FILE w) = Ok customers ->
  (find_customer customers (edit_id args) = Ok None /\
   edit_customer args w =
   (printed w [not_found_message (edit_id args)], Raise (SystemExit 1))) \/
  (exists (i : nat) (r : dict),
     find_customer customers (edit_id args) = Ok (Some i) /\
     customers !! i = Some (VDict r) /\
     edit_customer args w =
     match json_dump_writes 2 (VList (<[i := VDict (edited args r)]> customers)) with
     | (text, None) =>
         (printed (written w text) ["Updated customer:"; rendered [edited args r]],
          Ok tt)
     | (text, Some e) => (written w text, Raise e)
     end) \/
  (find_customer customers (edit_id args) = Raise AttributeError /\
   edit_customer args w = (w, Raise AttributeError)).
Proof.
  intros Hload.
  destruct (find_customer_split customers (edit_id args))
    as [(rows & Hrows & Hnone & Hfind)
       |[(before & r & rest & Hsplit & Hbefore & Hr & Hfind)
        |(before & v & rest & Hsplit & Hbefore & Hv & Hfind)]].
  - left. split; [exact Hfind|].
    unfold edit_customer. rewrite bind_loaded, Hload.
    rewrite (bind_lift_ok _ _ _ _ Hfind). reflexivity.
  - right. left. exists (length before), r.
    assert (Hi : customers !! length before = Some (VDict r)).
    { rewrite Hsplit, lookup_app_r by (rewrite length_map; lia).
      rewrite length_map, Nat.sub_diag. reflexivity. }
    split; [exact Hfind|]. split; [exact Hi|].
    unfold edit_customer. rewrite bind_loaded, Hload.
    rewrite (bind_lift_ok _ _ _ _ Hfind). rewrite Hi. cbn [default].
    rewrite (bind_lift_ok _ _ _ _ (apply_edits_dict args r)).
    fold (edited args r). rewrite bind_dump.
    destruct (json_dump_writes 2 (VList (<[length before := VDict (edited args r)]> customers)))
      as [text [e|]]; [reflexivity|].
    rewrite bind_print.
    rewrite (bind_lift_ok _ _ _ _ (render_table_one _)).
    unfold print, printed, written. cbn [files stdout].
    rewrite <- List.app_assoc. reflexivity.
  - right. right. split; [exact Hfind|].
    unfold edit_customer. rewrite bind_loaded, Hload.
    apply bind_lift_raise, Hfind.
Qed.

Lemma delete_customer_loaded (args : delete_args) (w : world) (customers : list value) :
  snd (load_customers DATA_FILE w) = Ok customers ->
  (find_customer customers (delete_id args) = Ok None /\
   delete_customer args w =
   (printed w [not_found_message (delete_id args)], Raise (SystemExit 1))) \/
  (exists (rows : list dict),
     customers = map VDict rows /\
     Exists (fun r => has_id (delete_id args) r = true) rows /\
     let kept := filter (fun r => has_id (delete_id args) r = false) rows in
     delete_customer args w =
     match json_dump_writes 2 (VList (map VDict kept)) with
     | (text, None) =>
         (printed (written w text)
            (("Deleted customer " +:+ str_of_int (delete_id args) +:+ ".")
             :: match kept with
                | [] => []
                | _ => ["Remaining customers:"; rendered kept]
                end),
          Ok tt)
     | (text, Some e) => (written w text, Raise e)
     end) \/
  delete_customer args w = (w, Raise AttributeError).
Proof.
  intros Hload.
  destruct (find_customer_split customers (delete_id args))
    as [(rows & Hrows & Hnone & Hfind)
       |[(before & r & rest & Hsplit & Hbefore & Hr & Hfind)
        |(before & v & rest & Hsplit & Hbefore & Hv & Hfind)]].
  - left. split; [exact Hfind|].
    unfold delete_customer. rewrite bind_loaded, Hload.
    rewrite (bind_lift_ok _ _ _ _ Hfind). reflexivity.
  - destruct (remaining_result customers (delete_id args))
      as [(rows & Hrows & Hremaining)|Hremaining].
    + right. left. exists rows. split; [exact Hrows|].
      split.
      { apply Exists_exists. exists r. split; [|exact Hr].
        assert (Hin : VDict r ∈ map VDict rows)
          by (rewrite <- Hrows, Hsplit; apply elem_of_app; right; left).
        apply list_elem_of_fmap in Hin as (r' & [= <-] & Hin). exact Hin. }
      intros kept.
      unfold delete_customer. rewrite bind_loaded, Hload.
      rewrite (bind_lift_ok _ _ _ _ Hfind).
      rewrite (bind_lift_ok _ _ _ _ Hremaining). fold kept.
      rewrite bind_dump.
      destruct (json_dump_writes 2 (VList (map VDict kept))) as [text [e|]];
        [reflexivity|].
      rewrite bind_print.
      destruct kept as [|r' kept'] eqn:Hkept; [reflexivity|].
      cbn [map]. rewrite bind_print.
      change (VDict r' :: map VDict kept') with (map VDict (r' :: kept')).
      rewrite (bind_lift_ok _ _ _ _ (render_table_dicts (r' :: kept'))).
      unfold print, printed, written. cbn [files stdout].
      rewrite <- !List.app_assoc. reflexivity.
    + right. right. unfold delete_customer. rewrite bind_loaded, Hload.
      rewrite (bind_lift_ok _ _ _ _ Hfind).
      apply bind_lift_raise, Hremaining.
  - right. right. unfold delete_customer. rewrite bind_loaded, Hload.
    apply bind_lift_raise, Hfind.
Qed.

(** X6. A run that does not return has written nothing, unless it was
    [json.dump] that raised: whatever the command, the json module and the
    files, when a run raises (SystemExit included) either the files are as
    they were, or the exception is the one that stopped [json.dump], the
    data file holds what had been written until then, and nothing was
    printed. *)
Theorem failed_run_writes_nothing (c : command) (w : world) (e : exn) :
  snd (main c w) = Raise e ->
  files (fst (main c w)) = files w \/
  exists (customers : list value) (text : string),
    json_dump_writes 2 (VList customers) = (text, Some e) /\
    fst (main c w) = written w text.
Proof.
  destruct (snd (load_customers DATA_FILE w)) as [customers|e'] eqn:Hload;
    [|rewrite (main_load_raises c w e' Hload); left; reflexivity].
  destruct c as [|args|args|args]; cbn [main].
  - rewrite (list_customers_loaded w customers Hload).
    destruct (render_table customers); left; reflexivity.
  - rewrite (add_customer_loaded args w customers Hload).
    destruct (next_id customers) as [[| |n| | |]|]; try (left; reflexivity).
    destruct (json_dump_writes 2 (VList (customers ++ [VDict (new_customer n args)])))
      as [text [e'|]] eqn:Hdump; cbn [fst snd]; [|discriminate].
    intros [= ->]. right. eauto.
  - destruct (edit_customer_loaded args w customers Hload)
      as [[_ ->]|[(i & r & _ & _ & ->)|[_ ->]]]; try (left; reflexivity).
    destruct (json_dump_writes 2 (VList (<[i := VDict (edited args r)]> customers)))
      as [text [e'|]] eqn:Hdump; cbn [fst snd]; [|discriminate].
    intros [= ->]. right. eauto.
  - destruct (delete_customer_loaded args w customers Hload)
      as [[_ ->]|[(rows & _ & _ & ->)| ->]]; try (left; reflexivity).
    cbv zeta.
    destruct (json_dump_writes 2
                (VList (map VDict (filter (fun r => has_id (delete_id args) r = false) rows))))
      as [text [e'|]] eqn:Hdump; cbn [fst snd]; [|discriminate].
    intros [= ->]. right. eauto.
Qed.

(** X8. [list_customers] prints at most one text and writes nothing.  It
    prints the placeholder when the data file is missing, when [json.load]
    raises JSONDecodeError and when the document is not a list or is the
    empty list; it prints the table when the document is a list of
    records.  When [json.load] raises another exception, or an element of
    the list is no dict, it prints nothing and raises. *)
Theorem list_customers_prints (w : world) :
  (files w !! DATA_FILE = None ->
   list_customers w = (printed w ["(no customers yet)"], Ok tt)) /\
  (forall text : string,
     files w !! DATA_FILE = Some text ->
     match json_load_reads text with
     | Ok (VList data) =>
         (forall rows : list dict,
            data = map VDict rows ->
            list_customers w =
            (printed w [match rows with
                        | [] => "(no customers yet)"
                        | _ => rendered rows
                        end], Ok tt)) /\
         (Exists (fun v => is_dict v = false) data ->
          list_customers w = (w, Raise AttributeError))
     | Ok _ => list_customers w = (printed w ["(no customers yet)"], Ok tt)
     | Raise JSONDecodeError =>
         list_customers w = (printed w ["(no customers yet)"], Ok tt)
     | Raise e => list_customers w = (w, Raise e)
     end).
Proof.
  split.
  - intros Hfile.
    rewrite (list_customers_loaded w []); [reflexivity|].
    rewrite (load_customers_missing _ _ Hfile). reflexivity.
  - intros text Hfile.
    pose proof (load_customers_reads _ _ _ Hfile) as Hload.
    apply (f_equal snd) in Hload. cbn [snd] in Hload.
    destruct (json_load_reads text) as [[| | | |data|]|e];
      try (rewrite (list_customers_loaded w [] Hload); reflexivity).
    + split.
      * intros rows ->. rewrite (list_customers_loaded w _ Hload).
        rewrite render_table_dicts. reflexivity.
      * intros Hex. rewrite (list_customers_loaded w _ Hload).
        rewrite (render_table_other _ Hex). reflexivity.
    + destruct e; cbn [is_JSONDecodeError] in Hload;
        try exact (main_load_raises CmdList w _ Hload).
      rewrite (list_customers_loaded w [] Hload). reflexivity.
Qed.

End RunsWithAnyModule.

Lemma failed_run_writes_nothing_witness :
  snd (main (CmdAdd (AddArgs "Cy" None None None))
         (world_of [ann; [("id", VStr "7")]])) = Raise TypeError /\
  (files (fst (main (CmdAdd (AddArgs "Cy" None None None))
                 (world_of [ann; [("id", VStr "7")]]))) =
   files (world_of [ann; [("id", VStr "7")]]) \/
   exists (customers : list value) (text : string),
     json_dump_writes 2 (VList customers) = (text, Some TypeError) /\
     fst (main (CmdAdd (AddArgs "Cy" None None None))
            (world_of [ann; [("id", VStr "7")]])) =
     written (world_of [ann; [("id", VStr "7")]]) text).
Proof.
  assert (Hrun : snd (main (CmdAdd (AddArgs "Cy" None None None))
                        (world_of [ann; [("id", VStr "7")]])) = Raise TypeError)
    by (vm_compute; reflexivity).
  split; [exact Hrun|].
  exact (failed_run_writes_nothing _ _ _ Hrun).
Defined.

Section Frame.
Context `{JsonLib}.

(** X7. A run of a command touches no file but the data file, and it
    only adds to what was printed: every other path holds what it held,
    and the output before the run is the beginning of the output after
    it.  [list_customers] leaves the data file as it is, too. *)
Theorem run_frame (c : command) (w : world) :
  (forall path : string,
     path <> DATA_FILE -> files (fst (main c w)) !! path = files w !! path) /\
  (exists printed : list string,
     stdout (fst (main c w)) = stdout w ++ printed) /\
  (c = CmdList -> files (fst (main c w)) = files w).
Proof.
  assert (Hsame : forall w' : world,
            files w' = files w ->
            forall path : string,
              path <> DATA_FILE -> files w' !! path = files w !! path)
    by (intros w' -> path _; reflexivity).
  assert (Hsaved : forall (text : string) (path : string),
            path <> DATA_FILE ->
            <[DATA_FILE := text]> (files w) !! path = files w !! path)
    by (intros text path Hpath; apply lookup_insert_ne; congruence).
  destruct c as [|args|args|args]; cbn [main].
  - destruct (list_customers_cases w) as [(table & _ & ->)|[_ ->]]; cbn [fst files stdout].
    + split; [auto|]. split; [eauto | reflexivity].
    + split; [auto|]. split; [exists []; rewrite app_nil_r | ]; reflexivity.
  - destruct (add_customer_cases args w) as [(n & _ & ->)|(e & _ & _ & ->)];
      cbn [fst files stdout].
    + split; [intros; apply Hsaved; assumption|]. split; [eauto | discriminate].
    + split; [auto|]. split; [exists []; rewrite app_nil_r; reflexivity | discriminate].
  - destruct (edit_customer_cases args w)
      as [[_ ->]|[(i & r & _ & _ & ->)|[_ ->]]]; cbn [fst files stdout].
    + split; [auto|]. split; [eauto | discriminate].
    + split; [intros; apply Hsaved; assumption|]. split; [eauto | discriminate].
    + split; [auto|]. split; [exists []; rewrite app_nil_r; reflexivity | discriminate].
  - destruct (delete_customer_cases args w)
      as [[_ ->]|[(rows & lines & _ & _ & ->)| ->]];
      cbn [fst files stdout saved_and_printed].
    + split; [auto|]. split; [eauto | discriminate].
    + split; [intros; apply Hsaved; assumption|]. split; [eauto | discriminate].
    + split; [auto|]. split; [exists []; rewrite app_nil_r; reflexivity | discriminate].
Qed.

End Frame.

(** ** add_customer *)

Lemma foldl_max_app (zs : list Z) (z n : Z) :
  foldl Z.max z (zs ++ [n]) = Z.max (foldl Z.max z zs) n.
Proof. rewrite foldl_app. reflexivity. Qed.

Lemma next_number_snoc (ids : list Z) :
  next_number (ids ++ [next_number ids]) = next_number ids + 1.
Proof.
  destruct ids as [|z zs]; [reflexivity|].
  cbn [app next_number]. rewrite foldl_max_app. lia.
Qed.

Lemma py_eq_number (v : value) (z n : Z) :
  as_int v = Some z -> py_eq v (VInt n) = Z.eqb z n.
Proof. destruct v; cbn; intros [= <-]; reflexivity. Qed.

Lemma has_id_number (r : dict) (z n : Z) :
  id_number r = Some z -> z <> n -> has_id n r = false.
Proof.
  unfold id_number, has_id. destruct (dict_get "id" r) as [v|]; [|reflexivity].
  intros Hv Hne. rewrite (py_eq_number v z n Hv). apply Z.eqb_neq, Hne.
Qed.

Lemma has_id_new_customer (n : Z) (args : add_args) :
  has_id n (new_customer n args) = true.
Proof. unfold has_id. cbn. apply Z.eqb_refl. Qed.

Lemma rows_without_id (rows : list dict) (ids : list Z) (n : Z) :
  Forall2 (fun r z => id_number r = Some z) rows ids ->
  Forall (fun z => z <> n) ids ->
  Forall (fun r => has_id n r = false) rows.
Proof.
  induction 1 as [|r z rows ids Hr _ IH]; intros Hall; [constructor|].
  inversion_clear Hall as [|? ? Hz Hrest]. constructor.
  - exact (has_id_number r z n Hr Hz).
  - apply IH, Hrest.
Qed.

Lemma no_row_has_next_number (rows : list dict) (ids : list Z) :
  Forall2 (fun r z => id_number r = Some z) rows ids ->
  Forall (fun r => has_id (next_number ids) r = false) rows.
Proof.
  intros Hids. apply (rows_without_id rows ids _ Hids).
  eapply Forall_impl; [apply next_number_above|]. simpl. intros; lia.
Qed.

Lemma filter_all {A} (P : A -> Prop) `{forall x, Decision (P x)} (l : list A) :
  Forall P l -> filter P l = l.
Proof.
  induction 1 as [|x l Hx _ IH]; [reflexivity|].
  rewrite filter_cons, decide_True by exact Hx. rewrite IH. reflexivity.
Qed.

Lemma or_empty_default (x : option string) : or_empty x = default EmptyString x.
Proof. destruct x; reflexivity. Qed.

Lemma added_record_last (rows : list dict) (ids : list Z) (args : add_args) :
  Forall2 (fun r z => id_number r = Some z) rows ids ->
  find_customer (map VDict (rows ++ [new_customer (next_number ids) args]))
    (next_number ids) = Ok (Some (length rows)) /\
  remaining (map VDict (rows ++ [new_customer (next_number ids) args]))
    (next_number ids) = Ok (map VDict rows) /\
  next_id (map VDict (rows ++ [new_customer (next_number ids) args])) =
    Ok (VInt (next_number ids + 1)).
Proof.
  intros Hids.
  pose proof (no_row_has_next_number rows ids Hids) as Hnone.
  split; [|split].
  - rewrite map_app. apply find_customer_at; [exact Hnone|].
    apply has_id_new_customer.
  - rewrite remaining_dicts, filter_app, (filter_all _ rows Hnone).
    rewrite filter_cons, decide_False, filter_nil, app_nil_r; [reflexivity|].
    rewrite has_id_new_customer. discriminate.
  - rewrite (next_id_numbers _ (ids ++ [next_number ids])).
    + rewrite next_number_snoc. reflexivity.
    + apply Forall2_app; [exact Hids|]. repeat constructor.
Qed.

(** X10. The record [add_customer] appends can be found and removed by
    its id, and the next id follows it: on the store with the new record,
    [find_customer] with the new id returns the last position, the filter
    of [delete_customer] with the new id gives back the store as it was
    before the add, and [next_id] gives the new id plus 1. *)
Theorem added_record_found_and_removed (rows : list dict) (ids : list Z)
    (args : add_args) :
  Forall2 (fun r z => id_number r = Some z) rows ids ->
  find_customer (map VDict (rows ++ [new_customer (next_number ids) args]))
    (next_number ids) = Ok (Some (length rows)) /\
  remaining (map VDict (rows ++ [new_customer (next_number ids) args]))
    (next_number ids) = Ok (map VDict rows) /\
  next_id (map VDict (rows ++ [new_customer (next_number ids) args])) =
    Ok (VInt (next_number ids + 1)).
Proof. apply added_record_last. Qed.

Lemma added_record_found_and_removed_witness :
  Forall2 (fun r z => id_number r = Some z) [ann; bo] [1; 2] /\
  remaining (map VDict ([ann; bo] ++ [new_customer (next_number [1; 2])
                                        (AddArgs "Cy" None None None)]))
    (next_number [1; 2]) = Ok (map VDict [ann; bo]).
Proof.
  assert (Hids : Forall2 (fun r z => id_number r = Some z) [ann; bo] [1; 2])
    by (repeat constructor).
  split; [exact Hids|].
  exact (proj1 (proj2 (added_record_found_and_removed [ann; bo] [1; 2]
                         (AddArgs "Cy" None None None) Hids))).
Defined.

Section Add.
Context `{JsonModule}.

(** X9. When [load_customers] gives a list of records whose ids are ints
    (the empty list for a missing file), [add_customer] hands to
    [json.dump] that list, unchanged and in its order, followed by one new
    record.  The new record has the keys id, name, phone, email and notes
    in this order; its id is above every id of the store (and 1 for an
    empty store); its name is the name given, and an option that was not
    given is the empty string.  When [json.dump] returns, the command has
    printed "Added customer:" and the table of the new record; when it
    raises, the command raises with nothing printed. *)
Theorem add_customer_appends (args : add_args) (w : world) (rows : list dict)
    (ids : list Z) :
  snd (load_customers DATA_FILE w) = Ok (map VDict rows) ->
  Forall2 (fun r z => id_number r = Some z) rows ids ->
  let n := next_number ids in
  Forall (fun z => z < n) ids /\
  (ids = [] -> n = 1) /\
  new_customer n args =
    [("id", VInt n);
     ("name", VStr (add_name args));
     ("phone", VStr (default EmptyString (add_phone args)));
     ("email", VStr (default EmptyString (add_email args)));
     ("notes", VStr (default EmptyString (add_notes args)))] /\
  add_customer args w =
    match json_dump_writes 2 (VList (map VDict (rows ++ [new_customer n args]))) with
    | (text, None) =>
        (printed (written w text) ["Added customer:"; rendered [new_customer n args]],
         Ok tt)
    | (text, Some e) => (written w text, Raise e)
    end.
Proof.
  intros Hload Hids n.
  split; [apply next_number_above|]. split; [intros ->; reflexivity|].
  split.
  - unfold new_customer. rewrite !or_empty_default. reflexivity.
  - rewrite (add_customer_loaded args w _ Hload).
    rewrite (next_id_numbers rows ids Hids). fold n.
    rewrite map_app. reflexivity.
Qed.

End Add.

Lemma add_customer_appends_witness :
  let args := AddArgs "Cy" (Some "555-3000") None None in
  let w := world_of [ann; bo] in
  snd (load_customers DATA_FILE w) = Ok (map VDict [ann; bo]) /\
  Forall2 (fun r z => id_number r = Some z) [ann; bo] [1; 2] /\
  add_customer args w =
  (printed (written w (PyJson.dumps 2 (VList (map VDict ([ann; bo] ++ [new_customer 3 args])))))
     ["Added customer:"; rendered [new_customer 3 args]],
   Ok tt).
Proof.
  intros args w.
  assert (Hload : snd (load_customers DATA_FILE w) = Ok (map VDict [ann; bo]))
    by (vm_compute; reflexivity).
  assert (Hids : Forall2 (fun r z => id_number r = Some z) [ann; bo] [1; 2])
    by (repeat constructor).
  split; [exact Hload|]. split; [exact Hids|].
  exact (proj2 (proj2 (proj2 (add_customer_appends args w [ann; bo] [1; 2] Hload Hids)))).
Defined.

(** ** The update of edit_customer, again *)

Lemma dict_set_same (key : string) (v : value) (d : dict) :
  dict_get key d = Some v -> dict_set key v d = d.
Proof.
  induction d as [|[k w] d IH]; cbn [dict_get dict_set]; [discriminate|].
  destruct (String.eqb_spec k key) as [->|Hk].
  - intros [= ->]. reflexivity.
  - intros Hd. rewrite IH by exact Hd. reflexivity.
Qed.

Lemma dict_get_none_keys (key : string) (d : dict) :
  dict_get key d = None <-> key ∉ map fst d.
Proof.
  induction d as [|[k w] d IH]; cbn [dict_get map fst].
  - split; [intros _; apply not_elem_of_nil | reflexivity].
  - rewrite not_elem_of_cons. destruct (String.eqb_spec k key) as [->|Hk].
    + split; [discriminate | intros [Hne _]; congruence].
    + rewrite IH. split; [intros Hd; split; [congruence | exact Hd] | intros [_ Hd]; exact Hd].
Qed.

Lemma dict_set_keys_new (key : string) (v : value) (d : dict) :
  dict_get key d = None -> map fst (dict_set key v d) = map fst d ++ [key].
Proof.
  intros Hnone. apply dict_get_none_keys in Hnone.
  rewrite (PyJsonFacts.dict_set_fresh key v d Hnone), map_app. reflexivity.
Qed.

Lemma dict_set_keys_prefix (key : string) (v : value) (d : dict) :
  map fst d `prefix_of` map fst (dict_set key v d).
Proof.
  destruct (dict_get key d) as [w|] eqn:Hget.
  - rewrite dict_set_keys by congruence. reflexivity.
  - rewrite dict_set_keys_new by exact Hget. apply prefix_app_r. reflexivity.
Qed.

Lemma set_if_given_keys_prefix (key : string) (given : option string) (d : dict) :
  map fst d `prefix_of` map fst (set_if_given key given d).
Proof. destruct given; [apply dict_set_keys_prefix | reflexivity]. Qed.

Lemma edited_keys_prefix (args : edit_args) (r : dict) :
  map fst r `prefix_of` map fst (edited args r).
Proof.
  unfold edited.
  repeat (etransitivity; [|apply set_if_given_keys_prefix]). reflexivity.
Qed.

Lemma set_if_given_same (key : string) (given : option string) (d : dict) :
  (forall s, given = Some s -> dict_get key d = Some (VStr s)) ->
  set_if_given key given d = d.
Proof.
  destruct given as [s|]; [|reflexivity]. intros Hd.
  apply dict_set_same, Hd. reflexivity.
Qed.

Lemma edited_twice (args : edit_args) (r : dict) :
  edited args (edited args r) = edited args r.
Proof.
  assert (Hname : forall s, edit_name args = Some s ->
                            dict_get "name" (edited args r) = Some (VStr s)).
  { intros s Hs. unfold edited. rewrite !dict_get_set_if_given. cbn. rewrite Hs.
    reflexivity. }
  assert (Hphone : forall s, edit_phone args = Some s ->
                             dict_get "phone" (edited args r) = Some (VStr s)).
  { intros s Hs. unfold edited. rewrite !dict_get_set_if_given. cbn. rewrite Hs.
    reflexivity. }
  assert (Hemail : forall s, edit_email args = Some s ->
                             dict_get "email" (edited args r) = Some (VStr s)).
  { intros s Hs. unfold edited. rewrite !dict_get_set_if_given. cbn. rewrite Hs.
    reflexivity. }
  assert (Hnotes : forall s, edit_notes args = Some s ->
                             dict_get "notes" (edited args r) = Some (VStr s)).
  { intros s Hs. unfold edited. rewrite !dict_get_set_if_given. cbn. rewrite Hs.
    reflexivity. }
  unfold edited at 1.
  rewrite (set_if_given_same "name" _ _ Hname).
  rewrite (set_if_given_same "phone" _ _ Hphone).
  rewrite (set_if_given_same "email" _ _ Hemail).
  apply (set_if_given_same "notes" _ _ Hnotes).
Qed.

(** X11. The update of [edit_customer] can be repeated without effect:
    applied to its own result with the same arguments it returns that
    result unchanged.  It keeps every key of the record in its place (a
    key the record did not have is added after them), and it keeps the
    record's id. *)
Theorem apply_edits_again (args : edit_args) (r : dict) :
  exists r' : dict,
    apply_edits args (VDict r) = Ok (VDict r') /\
    apply_edits args (VDict r') = Ok (VDict r') /\
    map fst r `prefix_of` map fst r' /\
    dict_get "id" r' = dict_get "id" r.
Proof.
  exists (edited args r). split; [apply apply_edits_dict|]. split; [|split].
  - rewrite apply_edits_dict. fold (edited args (edited args r)).
    rewrite edited_twice. reflexivity.
  - apply edited_keys_prefix.
  - unfold edited. rewrite !dict_get_set_if_given. reflexivity.
Qed.

(** ** The filter of delete_customer, again *)

Lemma filter_filter_swap {A} (P Q : A -> Prop) `{forall x, Decision (P x)}
    `{forall x, Decision (Q x)} (l : list A) :
  filter P (filter Q l) = filter Q (filter P l).
Proof.
  induction l as [|x l IH]; [reflexivity|].
  rewrite !filter_cons.
  destruct (decide (Q x)), (decide (P x)); rewrite ?filter_cons;
    rewrite ?decide_True, ?decide_False by assumption; rewrite IH; reflexivity.
Qed.

(** X12. On a list of records, the filter of [delete_customer] changes
    nothing when no record has the id; with a record that has the id the
    result is shorter; filtering the result again with the same id
    changes nothing; and two filters with two ids give the same list in
    either order. *)
Theorem remaining_again (rows : list dict) (customer_id other_id : Z) :
  exists kept : list dict,
    remaining (map VDict rows) customer_id = Ok (map VDict kept) /\
    (Forall (fun r => has_id customer_id r = false) rows -> kept = rows) /\
    (Exists (fun r => has_id customer_id r = true) rows ->
     (length kept < length rows)%nat) /\
    remaining (map VDict kept) customer_id = Ok (map VDict kept) /\
    (forall kept' kept'' : list dict,
       remaining (map VDict kept) other_id = Ok (map VDict kept') ->
       remaining (map VDict rows) other_id = Ok (map VDict kept'') ->
       remaining (map VDict kept'') customer_id = Ok (map VDict kept')).
Proof.
  exists (filter (fun r => has_id customer_id r = false) rows).
  split; [apply remaining_dicts|]. split; [|split; [|split]].
  - apply filter_all.
  - intros Hex. apply Exists_exists in Hex as (r & Hin & Hr).
    apply list_elem_of_lookup in Hin as [i Hi].
    pose proof (length_filter (fun r => has_id customer_id r = false) rows) as Hle.
    destruct (decide (length (filter (fun r => has_id customer_id r = false) rows)
                      = length rows)) as [Heq|Hne]; [|lia].
    exfalso.
    assert (Hall : Forall (fun r => has_id customer_id r = false) rows).
    { clear - Heq. induction rows as [|r rows IH]; [constructor|].
      rewrite filter_cons in Heq.
      pose proof (length_filter (fun r => has_id customer_id r = false) rows).
      destruct (decide (has_id customer_id r = false)); cbn [length] in Heq; [|lia].
      constructor; [assumption | apply IH; lia]. }
    rewrite Forall_lookup in Hall. specialize (Hall i r Hi). congruence.
  - rewrite remaining_dicts. do 2 f_equal. apply filter_all.
    apply Forall_forall. intros r Hr. apply list_elem_of_filter in Hr as [Hr _]. exact Hr.
  - intros kept' kept''. rewrite !remaining_dicts.
    intros [= Hk'%map_VDict_inj] [= Hk''%map_VDict_inj]. subst.
    do 2 f_equal. apply filter_filter_swap.
Qed.

(** ** From one run to the next *)

Lemma well_formed_new_customer (n : Z) (args : add_args) :
  well_formed (VDict (new_customer n args)).
Proof.
  constructor.
  - apply (bool_decide_unpack _). vm_compute. exact I.
  - repeat constructor.
Qed.

Lemma dict_set_values (key : string) (v : value) (d : dict) (P : value -> Prop) :
  P v -> Forall (fun kv => P (snd kv)) d ->
  Forall (fun kv => P (snd kv)) (dict_set key v d).
Proof.
  intros Hv. induction 1 as [|[k w] d Hw Hd IH]; cbn [dict_set].
  - repeat constructor. exact Hv.
  - destruct (String.eqb k key); constructor; cbn [snd] in *; assumption.
Qed.

Lemma dict_set_nodup (key : string) (v : value) (d : dict) :
  NoDup (map fst d) -> NoDup (map fst (dict_set key v d)).
Proof.
  intros Hnodup. destruct (dict_get key d) as [w|] eqn:Hget.
  - rewrite dict_set_keys by congruence. exact Hnodup.
  - rewrite dict_set_keys_new by exact Hget.
    apply NoDup_app. split; [exact Hnodup|]. split; [|apply NoDup_singleton].
    intros k Hk Hin. apply list_elem_of_singleton in Hin as ->.
    apply dict_get_none_keys in Hget. contradiction.
Qed.

Lemma well_formed_set_if_given (key : string) (given : option string) (d : dict) :
  well_formed (VDict d) -> well_formed (VDict (set_if_given key given d)).
Proof.
  destruct given as [s|]; [|trivial]. cbn [set_if_given].
  inversion_clear 1 as [| | | | |? Hnodup Hvalues]. constructor.
  - apply dict_set_nodup, Hnodup.
  - apply dict_set_values; [constructor | exact Hvalues].
Qed.

Lemma well_formed_edited (args : edit_args) (r : dict) :
  well_formed (VDict r) -> well_formed (VDict (edited args r)).
Proof.
  intros Hr. unfold edited. repeat apply well_formed_set_if_given. exact Hr.
Qed.

Lemma has_id_edited (args : edit_args) (customer_id : Z) (r : dict) :
  has_id customer_id (edited args r) = has_id customer_id r.
Proof.
  unfold has_id, edited. rewrite !dict_get_set_if_given. reflexivity.
Qed.

Section NextRun.
Context `{JsonLib}.
Hypothesis json_reads_back :
  forall v : value, well_formed v -> json_loads (json_dumps 2 v) = Some v.

Lemma stored_saved (w : world) (rows : list dict) (lines : list string) :
  Forall (fun r => well_formed (VDict r)) rows ->
  stored (saved_and_printed w rows lines) = map VDict rows.
Proof.
  intros Hrows. unfold stored, stored_at, sequence_of_text, saved_and_printed.
  cbn [files]. rewrite lookup_insert_eq, json_reads_back; [reflexivity|].
  constructor. apply Forall_fmap. exact Hrows.
Qed.

Lemma stored_after_add (args : add_args) (w : world) (rows : list dict)
    (ids : list Z) :
  stored w = map VDict rows ->
  Forall (fun r => well_formed (VDict r)) rows ->
  Forall2 (fun r z => id_number r = Some z) rows ids ->
  snd (add_customer args w) = Ok tt /\
  stored (fst (add_customer args w)) =
  map VDict (rows ++ [new_customer (next_number ids) args]).
Proof.
  intros Hstore Hwf Hids. rewrite (add_customer_run args w rows ids Hstore Hids).
  split; [reflexivity|]. cbn [fst]. apply stored_saved.
  apply Forall_app. split; [exact Hwf|].
  constructor; [apply well_formed_new_customer | constructor].
Qed.

Lemma stored_after_edit (args : edit_args) (w : world) (rows : list dict)
    (i : nat) (r : dict) :
  stored w = map VDict rows ->
  Forall (fun r => well_formed (VDict r)) rows ->
  list_find (fun r => has_id (edit_id args) r = true) rows = Some (i, r) ->
  snd (edit_customer args w) = Ok tt /\
  stored (fst (edit_customer args w)) = map VDict (<[i := edited args r]> rows).
Proof.
  intros Hstore Hwf Hfind. rewrite (edit_customer_found args w rows i r Hstore Hfind).
  split; [reflexivity|]. cbn [fst]. apply stored_saved.
  apply Forall_insert; [exact Hwf|]. apply well_formed_edited.
  apply list_find_Some in Hfind as (Hi & _ & _).
  rewrite Forall_lookup in Hwf. exact (Hwf i r Hi).
Qed.

Lemma stored_after_delete (args : delete_args) (w : world) (rows : list dict) :
  stored w = map VDict rows ->
  Forall (fun r => well_formed (VDict r)) rows ->
  Exists (fun r => has_id (delete_id args) r = true) rows ->
  snd (delete_customer args w) = Ok tt /\
  stored (fst (delete_customer args w)) =
  map VDict (filter (fun r => has_id (delete_id args) r = false) rows).
Proof.
  intros Hstore Hwf Hex. destruct (find_existing _ _ Hex) as (i & r & Hfind).
  rewrite (delete_customer_found args w rows i r Hstore Hfind).
  split; [reflexivity|]. cbn [fst]. apply stored_saved.
  apply Forall_forall. intros r' Hr'. apply list_elem_of_filter in Hr' as [_ Hr'].
  rewrite Forall_forall in Hwf. exact (Hwf r' Hr').
Qed.

(** X13. What a command saved is what the next run loads, given a json
    module that reads back what it writes: after a successful add the
    store is the old records followed by the new one, after a successful
    edit it is the old records with the first record of the id replaced
    by the updated one, and after a successful delete it is the old
    records without those of the id. *)
Theorem next_run_sees_the_change (w : world) (rows : list dict) :
  stored w = map VDict rows ->
  Forall (fun r => well_formed (VDict r)) rows ->
  (forall (args : add_args) (ids : list Z),
     Forall2 (fun r z => id_number r = Some z) rows ids ->
     snd (add_customer args w) = Ok tt /\
     stored (fst (add_customer args w)) =
     map VDict (rows ++ [new_customer (next_number ids) args])) /\
  (forall (args : edit_args) (i : nat) (r : dict),
     list_find (fun r => has_id (edit_id args) r = true) rows = Some (i, r) ->
     snd (edit_customer args w) = Ok tt /\
     stored (fst (edit_customer args w)) = map VDict (<[i := edited args r]> rows)) /\
  (forall args : delete_args,
     Exists (fun r => has_id (delete_id args) r = true) rows ->
     snd (delete_customer args w) = Ok tt /\
     stored (fst (delete_customer args w)) =
     map VDict (filter (fun r => has_id (delete_id args) r = false) rows)).
Proof.
  intros Hstore Hwf. split; [|split].
  - intros args ids. apply stored_after_add; assumption.
  - intros args i r. apply stored_after_edit; assumption.
  - intros args. apply stored_after_delete; assumption.
Qed.

(** X14. After a successful delete of an id, a second delete and an edit
    with the same id do not find it: they print the not-found line, exit
    with status 1 and leave the files as the first delete left them. *)
Theorem deleted_id_is_gone (w : world) (rows : list dict) (args : delete_args)
    (e : edit_args) :
  stored w = map VDict rows ->
  Forall (fun r => well_formed (VDict r)) rows ->
  Exists (fun r => has_id (delete_id args) r = true) rows ->
  edit_id e = delete_id args ->
  let w1 := fst (delete_customer args w) in
  snd (delete_customer args w) = Ok tt /\
  delete_customer args w1 =
    (World (files w1) (stdout w1 ++ [not_found_message (delete_id args)]),
     Raise (SystemExit 1)) /\
  edit_customer e w1 =
    (World (files w1) (stdout w1 ++ [not_found_message (delete_id args)]),
     Raise (SystemExit 1)).
Proof.
  intros Hstore Hwf Hex He w1.
  destruct (stored_after_delete args w rows Hstore Hwf Hex) as [Hok Hstored].
  fold w1 in Hstored.
  assert (Hfind : find_customer (stored w1) (delete_id args) = Ok None).
  { rewrite Hstored. apply find_customer_none.
    apply Forall_forall. intros r Hr. apply list_elem_of_filter in Hr as [Hr _]. exact Hr. }
  split; [exact Hok|]. split.
  - apply delete_customer_not_found, Hfind.
  - rewrite <- He. apply edit_customer_not_found. rewrite He. exact Hfind.
Qed.

(** X15. Adding a record and then deleting the id it was given brings the
    store back: the second run returns, and the data file then holds the
    text of the records the store had before the add, which is what the
    next run loads. *)
Theorem add_then_delete_restores (w : world) (rows : list dict) (ids : list Z)
    (args : add_args) :
  stored w = map VDict rows ->
  Forall (fun r => well_formed (VDict r)) rows ->
  Forall2 (fun r z => id_number r = Some z) rows ids ->
  let w1 := fst (add_customer args w) in
  let w2 := fst (delete_customer (DeleteArgs (next_number ids)) w1) in
  snd (add_customer args w) = Ok tt /\
  snd (delete_customer (DeleteArgs (next_number ids)) w1) = Ok tt /\
  files w2 = <[DATA_FILE := json_dumps 2 (VList (map VDict rows))]> (files w) /\
  stored w2 = map VDict rows.
Proof.
  intros Hstore Hwf Hids w1 w2.
  destruct (stored_after_add args w rows ids Hstore Hwf Hids) as [Hok1 Hstored1].
  fold w1 in Hstored1.
  pose proof (added_record_last rows ids args Hids) as (Hfind & Hremaining & _).
  rewrite <- Hstored1 in Hfind, Hremaining.
  assert (Hrun : delete_customer (DeleteArgs (next_number ids)) w1 =
                 (saved_and_printed w1 rows
                    (("Deleted customer " +:+ str_of_int (next_number ids) +:+ ".")
                     :: match rows with
                        | [] => []
                        | kept => ["Remaining customers:"; rendered kept]
                        end), Ok tt)).
  { unfold delete_customer. rewrite bind_load. cbn [delete_id].
    rewrite (bind_lift_ok _ _ _ _ Hfind), (bind_lift_ok _ _ _ _ Hremaining).
    rewrite bind_save, bind_print. unfold saved_and_printed.
    destruct rows as [|r rows']; [reflexivity|].
    cbn [map]. change (VDict r :: map VDict rows') with (map VDict (r :: rows')).
    rewrite bind_print, (bind_lift_ok _ _ _ _ (render_table_dicts _)).
    unfold print. cbn [files stdout]. rewrite <- !List.app_assoc. reflexivity. }
  split; [exact Hok1|].
  unfold w2. rewrite Hrun. cbn [fst snd]. split; [reflexivity|]. split.
  - unfold saved_and_printed. cbn [files]. unfold w1.
    rewrite (add_customer_run args w rows ids Hstore Hids). cbn [fst].
    unfold saved_and_printed. cbn [files]. apply insert_insert_eq.
  - apply stored_saved, Hwf.
Qed.

(** X16. Two adds in a row give consecutive ids: the second record gets
    the id of the first plus 1, and the store then ends with the two
    records in the order they were added. *)
Theorem two_adds_in_a_row (w : world) (rows : list dict) (ids : list Z)
    (first second : add_args) :
  stored w = map VDict rows ->
  Forall (fun r => well_formed (VDict r)) rows ->
  Forall2 (fun r z => id_number r = Some z) rows ids ->
  let w1 := fst (add_customer first w) in
  let w2 := fst (add_customer second w1) in
  snd (add_customer second w1) = Ok tt /\
  stored w2 =
  map VDict (rows ++ [new_customer (next_number ids) first;
                      new_customer (next_number ids + 1) second]).
Proof.
  intros Hstore Hwf Hids w1 w2.
  destruct (stored_after_add first w rows ids Hstore Hwf Hids) as [_ Hstored1].
  fold w1 in Hstored1.
  assert (Hwf1 : Forall (fun r => well_formed (VDict r))
                   (rows ++ [new_customer (next_number ids) first])).
  { apply Forall_app. split; [exact Hwf|].
    constructor; [apply well_formed_new_customer | constructor]. }
  assert (Hids1 : Forall2 (fun r z => id_number r = Some z)
                    (rows ++ [new_customer (next_number ids) first])
                    (ids ++ [next_number ids])).
  { apply Forall2_app; [exact Hids|]. repeat constructor. }
  destruct (stored_after_add second w1 _ _ Hstored1 Hwf1 Hids1) as [Hok2 Hstored2].
  fold w2 in Hstored2. split; [exact Hok2|].
  rewrite Hstored2, next_number_snoc, <- List.app_assoc. reflexivity.
Qed.

End NextRun.

Lemma list_find_insert_same {A} (P : A -> Prop) `{forall x, Decision (P x)}
    (l : list A) (i : nat) (x y : A) :
  list_find P l = Some (i, x) -> P y ->
  list_find P (<[i := y]> l) = Some (i, y).
Proof.
  intros Hfind Hy. apply list_find_Some in Hfind as (Hi & _ & Hbefore).
  apply list_find_Some. split; [|split].
  - apply list_lookup_insert_eq. eapply lookup_lt_Some, Hi.
  - exact Hy.
  - intros j z Hj Hlt. rewrite list_lookup_insert_ne in Hj by lia.
    exact (Hbefore j z Hj Hlt).
Qed.

Section NextRunAgain.
Context `{JsonLib}.
Hypothesis json_reads_back :
  forall v : value, well_formed v -> json_loads (json_dumps 2 v) = Some v.

(** X17. A save replaces what was saved before: after two saves to one
    path, [load_customers] returns the list saved last.  A save to one
    path leaves the store at every other path as it was. *)
Theorem last_save_wins (w : world) (path : string) (first last : list dict) :
  Forall (fun r => well_formed (VDict r)) last ->
  let w1 := fst (save_customers (map VDict first) path w) in
  let w2 := fst (save_customers (map VDict last) path w1) in
  load_customers path w2 = (w2, Ok (map VDict last)) /\
  files w2 = files (fst (save_customers (map VDict last) path w)) /\
  (forall other : string, other <> path -> stored_at other w2 = stored_at other w).
Proof.
  intros Hlast w1 w2. split; [|split].
  - apply load_after_save_with, json_reads_back.
    constructor. apply Forall_fmap. exact Hlast.
  - unfold w2, w1, save_customers, json_dump, write_text. cbn [fst files].
    apply insert_insert_eq.
  - intros other Hother. unfold stored_at, w2, w1, save_customers, json_dump, write_text.
    cbn [fst files json_dump_writes json_module_of_lib bind ret].
    rewrite !lookup_insert_ne by congruence. reflexivity.
Qed.

(** X18. An edit can be run twice: the second run finds the same record,
    returns, prints the same two texts again and leaves the data file
    with the text the first run wrote. *)
Theorem edit_twice (w : world) (rows : list dict) (args : edit_args)
    (i : nat) (r : dict) :
  stored w = map VDict rows ->
  Forall (fun r => well_formed (VDict r)) rows ->
  list_find (fun r => has_id (edit_id args) r = true) rows = Some (i, r) ->
  let w1 := fst (edit_customer args w) in
  let w2 := fst (edit_customer args w1) in
  snd (edit_customer args w1) = Ok tt /\
  files w2 = files w1 /\
  stored w2 = stored w1 /\
  stdout w2 = stdout w1 ++ ["Updated customer:"; rendered [edited args r]].
Proof.
  intros Hstore Hwf Hfind w1 w2.
  destruct (stored_after_edit json_reads_back args w rows i r Hstore Hwf Hfind)
    as [_ Hstored1].
  fold w1 in Hstored1.
  assert (Hfind1 : list_find (fun r => has_id (edit_id args) r = true)
                     (<[i := edited args r]> rows) = Some (i, edited args r)).
  { apply (list_find_insert_same _ rows i r _ Hfind).
    rewrite has_id_edited. apply list_find_Some in Hfind as (_ & Hr & _). exact Hr. }
  assert (Hrun : edit_customer args w1 =
                 (saved_and_printed w1 (<[i := edited args r]> rows)
                    ["Updated customer:"; rendered [edited args r]], Ok tt)).
  { rewrite (edit_customer_found args w1 _ i _ Hstored1 Hfind1).
    rewrite edited_twice, list_insert_insert_eq. reflexivity. }
  assert (Hfiles : files (saved_and_printed w1 (<[i := edited args r]> rows)
                            ["Updated customer:"; rendered [edited args r]])
                   = files w1).
  { unfold saved_and_printed. cbn [files]. unfold w1.
    rewrite (edit_customer_found args w rows i r Hstore Hfind). cbn [fst].
    unfold saved_and_printed. cbn [files]. apply insert_insert_eq. }
  unfold w2. rewrite Hrun. cbn [fst snd].
  split; [reflexivity|]. split; [exact Hfiles|]. split; [|reflexivity].
  unfold stored, stored_at. rewrite Hfiles. reflexivity.
Qed.

End NextRunAgain.

(** ** The properties above, at the example store *)

Lemma well_formed_ann_bo : Forall (fun r => well_formed (VDict r)) [ann; bo].
Proof.
  repeat constructor; try (apply (bool_decide_unpack _); vm_compute; exact I);
    repeat constructor.
Qed.

Lemma next_run_sees_the_change_witness :
  (forall (args : add_args) (ids : list Z),
     Forall2 (fun r z => id_number r = Some z) [ann; bo] ids ->
     snd (add_customer args (world_of [ann; bo])) = Ok tt /\
     stored (fst (add_customer args (world_of [ann; bo]))) =
     map VDict ([ann; bo] ++ [new_customer (next_number ids) args])) /\
  (forall (args : edit_args) (i : nat) (r : dict),
     list_find (fun r => has_id (edit_id args) r = true) [ann; bo] = Some (i, r) ->
     snd (edit_customer args (world_of [ann; bo])) = Ok tt /\
     stored (fst (edit_customer args (world_of [ann; bo]))) =
     map VDict (<[i := edited args r]> [ann; bo])) /\
  (forall args : delete_args,
     Exists (fun r => has_id (delete_id args) r = true) [ann; bo] ->
     snd (delete_customer args (world_of [ann; bo])) = Ok tt /\
     stored (fst (delete_customer args (world_of [ann; bo]))) =
     map VDict (filter (fun r => has_id (delete_id args) r = false) [ann; bo])).
Proof.
  exact (next_run_sees_the_change (H := py_json) (PyJsonFacts.loads_dumps 2) (world_of [ann; bo])
           [ann; bo] stored_world_of_two well_formed_ann_bo).
Defined.

Lemma deleted_id_is_gone_witness :
  let w1 := fst (delete_customer (DeleteArgs 1) (world_of [ann; bo])) in
  snd (delete_customer (DeleteArgs 1) (world_of [ann; bo])) = Ok tt /\
  delete_customer (DeleteArgs 1) w1 =
    (World (files w1) (stdout w1 ++ [not_found_message 1]), Raise (SystemExit 1)) /\
  edit_customer (EditArgs 1 (Some "Anna") None None None) w1 =
    (World (files w1) (stdout w1 ++ [not_found_message 1]), Raise (SystemExit 1)).
Proof.
  apply (deleted_id_is_gone (H := py_json) (PyJsonFacts.loads_dumps 2) (world_of [ann; bo]) [ann; bo]
           (DeleteArgs 1) (EditArgs 1 (Some "Anna") None None None)
           stored_world_of_two well_formed_ann_bo).
  - left. reflexivity.
  - reflexivity.
Defined.

Lemma add_then_delete_restores_witness :
  let w := world_of [ann; bo] in
  let args := AddArgs "Cy" None None None in
  let w1 := fst (add_customer args w) in
  let w2 := fst (delete_customer (DeleteArgs (next_number [1; 2])) w1) in
  snd (add_customer args w) = Ok tt /\
  snd (delete_customer (DeleteArgs (next_number [1; 2])) w1) = Ok tt /\
  files w2 = <[DATA_FILE := json_dumps 2 (VList (map VDict [ann; bo]))]> (files w) /\
  stored w2 = map VDict [ann; bo].
Proof.
  apply (add_then_delete_restores (H := py_json) (PyJsonFacts.loads_dumps 2) (world_of [ann; bo])
           [ann; bo] [1; 2] (AddArgs "Cy" None None None)
           stored_world_of_two well_formed_ann_bo).
  repeat constructor.
Defined.

Lemma two_adds_in_a_row_witness :
  let w := world_of [ann; bo] in
  let first := AddArgs "Cy" None None None in
  let second := AddArgs "Di" None (Some "di@example.org") None in
  let w1 := fst (add_customer first w) in
  let w2 := fst (add_customer second w1) in
  snd (add_customer second w1) = Ok tt /\
  stored w2 =
  map VDict ([ann; bo] ++ [new_customer (next_number [1; 2]) first;
                           new_customer (next_number [1; 2] + 1) second]).
Proof.
  apply (two_adds_in_a_row (H := py_json) (PyJsonFacts.loads_dumps 2) (world_of [ann; bo])
           [ann; bo] [1; 2]
           (AddArgs "Cy" None None None)
           (AddArgs "Di" None (Some "di@example.org") None)
           stored_world_of_two well_formed_ann_bo).
  repeat constructor.
Defined.

Lemma last_save_wins_witness :
  let w1 := fst (save_customers (map VDict [ann]) DATA_FILE (World ∅ [])) in
  let w2 := fst (save_customers (map VDict [ann; bo]) DATA_FILE w1) in
  load_customers DATA_FILE w2 = (w2, Ok (map VDict [ann; bo])) /\
  files w2 = files (fst (save_customers (map VDict [ann; bo]) DATA_FILE (World ∅ []))) /\
  (forall other : string,
     other <> DATA_FILE -> stored_at other w2 = stored_at other (World ∅ [])).
Proof.
  exact (last_save_wins (H := py_json) (PyJsonFacts.loads_dumps 2) (World ∅ []) DATA_FILE [ann] [ann; bo]
           well_formed_ann_bo).
Defined.

Lemma edit_twice_witness :
  let w := world_of [ann; bo] in
  let args := EditArgs 2 None (Some "555-2000") None None in
  let w1 := fst (edit_customer args w) in
  let w2 := fst (edit_customer args w1) in
  snd (edit_customer args w1) = Ok tt /\
  files w2 = files w1 /\
  stored w2 = stored w1 /\
  stdout w2 = stdout w1 ++ ["Updated customer:"; rendered [edited args bo]].
Proof.
  apply (edit_twice (H := py_json) (PyJsonFacts.loads_dumps 2) (world_of [ann; bo]) [ann; bo]
           (EditArgs 2 None (Some "555-2000") None None) 1%nat bo
           stored_world_of_two well_formed_ann_bo).
  reflexivity.
Defined.
